(** * Digital identity frontend: configuration and registration form

    A shallow embedding of [src/utils/config.js] and of the validation and
    submission logic of [src/pages/Register.jsx], with the properties their
    specification states about them.

    Conventions of the embedding:
    - a JavaScript string is its sequence of UTF-16 code units ([list N]);
      [lit] turns an ASCII literal into that form;
    - a plain object used as a dictionary is a [gmap] from property names to
      values; a missing property reads as [undefined];
    - a function that may throw returns a [result];
    - React state setters, [fetch], [navigate] and the console are events of
      a trace; the store holds the component's state variables. *)

From Stdlib Require Import NArith Ascii String SpecFloat.
From stdpp Require Import gmap list strings.

Open Scope N_scope.

(** ** Strings *)

Abbreviation jsstring := (list N).

Definition lit (s : string) : jsstring :=
  (fun c => N_of_ascii c) <$> list_ascii_of_string s.

(** [Array.prototype.join] on an array of strings. *)
Fixpoint join (sep : jsstring) (l : list jsstring) : jsstring :=
  match l with
  | [] => []
  | [x] => x
  | x :: rest => x ++ sep ++ join sep rest
  end.

(** ** Thrown values and fallible computations *)

Inductive exn :=
| Error (message : jsstring)      (* new Error(message) *)
| TypeError (message : jsstring)  (* property read on null/undefined, failed fetch *)
| SyntaxError (message : jsstring) (* JSON parse failure *).

Inductive result (A : Type) :=
| Ok (a : A)
| Throw (e : exn).
Arguments Ok {A} a.
Arguments Throw {A} e.

#[global] Instance result_ret : MRet result := fun A a => Ok a.

#[global] Instance result_bind : MBind result := fun A B k m =>
  match m with
  | Ok a => k a
  | Throw e => Throw e
  end.

Definition exn_message (e : exn) : jsstring :=
  match e with
  | Error m | TypeError m | SyntaxError m => m
  end.

(** ** Regular expressions

    The three patterns of the rule table use character classes, literal
    characters, concatenation, [+] and [{n}], between [^] and [$] and without
    flags.  [RegExp.prototype.test] only asks whether a match exists, so a
    pattern is modelled by its regular language and decided with
    derivatives. *)
Module RegExp.

Inductive class_atom :=
| ClassChar (c : N)        (* a single code unit, e.g. [@] *)
| ClassRange (lo hi : N)   (* [lo-hi] *)
| ClassSpace               (* [\s] *)
| ClassDigit.              (* [\d] *)

Record char_class := { negated : bool; atoms : list class_atom }.

(** [\s]: WhiteSpace and LineTerminator of the language definition. *)
Definition is_white_space (c : N) : bool :=
  (c =? 9) || (c =? 10) || (c =? 11) || (c =? 12) || (c =? 13) ||
  (c =? 32) || (c =? 160) || (c =? 5760) ||
  ((8192 <=? c) && (c <=? 8202)) ||
  (c =? 8232) || (c =? 8233) || (c =? 8239) || (c =? 8287) ||
  (c =? 12288) || (c =? 65279).

(** [\d] is [0-9] only. *)
Definition is_digit (c : N) : bool := (48 <=? c) && (c <=? 57).

Definition atom_has (a : class_atom) (c : N) : bool :=
  match a with
  | ClassChar x => c =? x
  | ClassRange lo hi => (lo <=? c) && (c <=? hi)
  | ClassSpace => is_white_space c
  | ClassDigit => is_digit c
  end.

Definition class_has (cl : char_class) (c : N) : bool :=
  xorb (negated cl) (existsb (fun a => atom_has a c) (atoms cl)).

Inductive regex :=
| Void
| Empty
| Class (cl : char_class)
| Seq (r1 r2 : regex)
| Alt (r1 r2 : regex)
| Star (r : regex).

(** [r+] and [r{n}]. *)
Definition Plus (r : regex) : regex := Seq r (Star r).

Fixpoint Repeat (n : nat) (r : regex) : regex :=
  match n with
  | O => Empty
  | S n' => Seq r (Repeat n' r)
  end.

Definition Char (c : N) : regex :=
  Class {| negated := false; atoms := [ClassChar c] |}.

Definition AnyUnit : regex := Class {| negated := true; atoms := [] |}.

Fixpoint nullable (r : regex) : bool :=
  match r with
  | Void => false
  | Empty => true
  | Class _ => false
  | Seq r1 r2 => nullable r1 && nullable r2
  | Alt r1 r2 => nullable r1 || nullable r2
  | Star _ => true
  end.

Fixpoint deriv (c : N) (r : regex) : regex :=
  match r with
  | Void => Void
  | Empty => Void
  | Class cl => if class_has cl c then Empty else Void
  | Seq r1 r2 =>
      if nullable r1
      then Alt (Seq (deriv c r1) r2) (deriv c r2)
      else Seq (deriv c r1) r2
  | Alt r1 r2 => Alt (deriv c r1) (deriv c r2)
  | Star r1 => Seq (deriv c r1) (Star r1)
  end.

Fixpoint accepts (r : regex) (s : jsstring) : bool :=
  match s with
  | [] => nullable r
  | c :: s' => accepts (deriv c r) s'
  end.

(** The language of a regular expression, as a relation. *)
Inductive Matches : regex -> jsstring -> Prop :=
| MEmpty : Matches Empty []
| MClass cl c : class_has cl c = true -> Matches (Class cl) [c]
| MSeq r1 r2 s1 s2 : Matches r1 s1 -> Matches r2 s2 -> Matches (Seq r1 r2) (s1 ++ s2)
| MAltL r1 r2 s : Matches r1 s -> Matches (Alt r1 r2) s
| MAltR r1 r2 s : Matches r2 s -> Matches (Alt r1 r2) s
| MStarNil r : Matches (Star r) []
| MStarApp r s1 s2 : Matches r s1 -> Matches (Star r) s2 -> Matches (Star r) (s1 ++ s2).

(** A regular-expression literal without flags: [/^inner$/] has both
    anchors, [/inner/] has none. *)
Record t := { from_start : bool; inner : regex; to_end : bool }.

(** [pattern.test(s)]: some substring matches [inner], starting at the
    beginning when [^] is present and ending at the end when [$] is. *)
Definition test (p : t) (s : jsstring) : bool :=
  accepts
    (Seq (if from_start p then Empty else Star AnyUnit)
         (Seq (inner p) (if to_end p then Empty else Star AnyUnit)))
    s.

End RegExp.

(** ** Values

    The form holds strings (text inputs) and booleans (the checkbox); a
    property that is absent reads as [undefined]. *)

Inductive jsval :=
| JUndefined
| JBool (b : bool)
| JStr (s : jsstring).

#[global] Instance jsval_eq_dec : EqDecision jsval.
Proof. solve_decision. Defined.

(** ToBoolean. *)
Definition truthy (v : jsval) : bool :=
  match v with
  | JUndefined => false
  | JBool b => b
  | JStr s => negb (bool_decide (s = []))
  end.

(** ToString, as [RegExp.prototype.test] applies it to its argument. *)
Definition ToString (v : jsval) : jsstring :=
  match v with
  | JUndefined => lit "undefined"
  | JBool true => lit "true"
  | JBool false => lit "false"
  | JStr s => s
  end.

(** [value.length]: a string has its number of code units, a boolean has no
    such property, and reading a property of [undefined] throws. *)
Definition get_length (v : jsval) : result (option N) :=
  match v with
  | JUndefined =>
      Throw (TypeError (lit "Cannot read properties of undefined (reading 'length')"))
  | JBool _ => Ok None
  | JStr s => Ok (Some (N.of_nat (length s)))
  end.

(** [x < n] for [x] a length or [undefined]: [undefined] converts to NaN and
    every comparison with NaN is false. *)
Definition less_than (x : option N) (n : N) : bool :=
  match x with
  | Some l => l <? n
  | None => false
  end.

(** [a !== b] on these values. *)
Definition strict_neq (a b : jsval) : bool := negb (bool_decide (a = b)).

(** [obj[name]] on a plain object whose own properties are the map's; the
    names read in this program are never those of [Object.prototype]. *)
Definition prop (obj : gmap jsstring jsval) (name : jsstring) : jsval :=
  default JUndefined (obj !! name).

Definition Object_keys {V} (obj : gmap jsstring V) : list jsstring :=
  (map_to_list obj).*1.

(** Values produced by parsing a JSON text. Numbers are IEEE doubles. *)
#[warning="-register-all"]
Inductive json :=
| JNull
| JFlag (b : bool)
| JNumber (x : spec_float)
| JString (s : jsstring)
| JArray (items : list json)
| JObject (props : list (jsstring * json)).

Definition json_truthy (j : json) : bool :=
  match j with
  | JNull => false
  | JFlag b => b
  | JNumber (S754_zero _) | JNumber S754_nan => false
  | JNumber _ => true
  | JString s => negb (bool_decide (s = []))
  | JArray _ | JObject _ => true
  end.

(** The own property [name] of an object given by its list of properties
    (a parsed object has each name once). *)
Fixpoint assoc {V} (name : jsstring) (props : list (jsstring * V)) : option V :=
  match props with
  | [] => None
  | (k, v) :: rest => if bool_decide (k = name) then Some v else assoc name rest
  end.

(** [errorData.message]: [None] is [undefined]. No built-in prototype has a
    [message] property, so only an object's own property can provide one;
    reading it from [null] throws. *)
Definition get_message (errorData : json) : result (option json) :=
  match errorData with
  | JNull => Throw (TypeError (lit "Cannot read properties of null (reading 'message')"))
  | JObject props => Ok (assoc (lit "message") props)
  | _ => Ok None
  end.

(** [a || b] where [a] may be [undefined]. *)
Definition or_else (a : option json) (b : json) : json :=
  match a with
  | Some j => if json_truthy j then j else b
  | None => b
  end.

(** ** Effects *)

(** The text [JSON.stringify(obj)] of an object literal with the given
    properties, kept symbolic. *)
Inductive json_text :=
| JSON_stringify (props : list (jsstring * jsval)).

Record request := {
  url : jsstring;
  method : jsstring;
  headers : list (jsstring * jsstring);
  body : json_text
}.

(** What the program reads of a [Response]: its status and the outcome of
    [res.json()], which throws when the body is not JSON. *)
Record response := {
  status : N;
  json_body : result json
}.

(** [res.ok]. *)
Definition ok (res : response) : bool := (200 <=? status res) && (status res <=? 299).

(** The remote side: for each request, a response or a rejection. *)
Definition backend := request -> result response.

Inductive console_arg :=
| ArgStr (s : jsstring)
| ArgList (l : list jsstring)
| ArgExn (e : exn).

Inductive event :=
| ConsoleLog (args : list console_arg)
| ConsoleWarn (args : list console_arg)
| ConsoleError (args : list console_arg)
| PreventDefault
| SetFormData (name : jsstring) (value : jsval)   (* prev => ({...prev, [name]: value}) *)
| SetFormErrors (errors : gmap jsstring jsval)
| SetLoading (b : bool)
| SetError (message : option json)
| Fetch (req : request)
| Navigate (path : jsstring).

(** A computation emits events and then returns or throws. *)
Definition io (A : Type) : Type := list event * result A.

#[global] Instance io_ret : MRet io := fun A a => ([], Ok a).

#[global] Instance io_bind : MBind io := fun A B k m =>
  match m with
  | (t, Ok a) => let '(t', r) := k a in (t ++ t', r)
  | (t, Throw e) => (t, Throw e)
  end.

Definition emit (e : event) : io unit := ([e], Ok tt).

Definition throw {A} (e : exn) : io A := ([], Throw e).

Definition lift {A} (r : result A) : io A := ([], r).

(** [try { body } catch (err) { handler err }]. *)
Definition try_catch {A} (body : io A) (handler : exn -> io A) : io A :=
  match body with
  | (t, Ok a) => (t, Ok a)
  | (t, Throw e) => let '(t', r) := handler e in (t ++ t', r)
  end.

(** [try { body } catch (err) { handler err } finally { final }]: the
    [finally] block runs last on every path; if it throws, that replaces the
    outcome. *)
Definition try_catch_finally {A} (body : io A) (handler : exn -> io A)
    (final : io unit) : io A :=
  let '(t, r) := try_catch body handler in
  match final with
  | (t', Ok _) => (t ++ t', r)
  | (t', Throw e) => (t ++ t', Throw e)
  end.

(** [await fetch(req)]. *)
Definition fetch (server : backend) (req : request) : io response :=
  ([Fetch req], server req).

(** ** src/utils/config.js

    The console lines of this file open with a pictograph, written here by
    its code units: 9888 65039 (warning sign), 10060 (cross mark), 9989
    (check mark), 55356 57104 (globe), 55357 56593 (key), 55356 57335 65039
    (label). *)
Module Config.

Record process_env := {
  REACT_APP_API_BASE_URL : option jsstring;
  REACT_APP_RP_ID : option jsstring;
  REACT_APP_RP_NAME : option jsstring
}.

(** ToBoolean of [process.env.X]: unset and the empty string are falsy. *)
Definition is_set (v : option jsstring) : bool :=
  match v with
  | Some (_ :: _) => true
  | _ => false
  end.

Definition push (l : list jsstring) (x : jsstring) : list jsstring := l ++ [x].

Definition validateConfig (env : process_env) : io bool :=
  let errors := [] in
  let warnings := [] in
  let errors :=
    if negb (is_set (REACT_APP_API_BASE_URL env))
    then push errors (lit "REACT_APP_API_BASE_URL is required")
    else errors in
  let warnings :=
    if negb (is_set (REACT_APP_RP_ID env))
    then push warnings (lit "REACT_APP_RP_ID is not set - passkey functionality may not work")
    else warnings in
  let warnings :=
    if negb (is_set (REACT_APP_RP_NAME env))
    then push warnings (lit "REACT_APP_RP_NAME is not set - using default")
    else warnings in
  (if (0 <? length warnings)%nat
   then emit (ConsoleWarn [ArgStr ([9888; 65039] ++ lit " Configuration warnings:");
                           ArgList warnings])
   else mret tt);;
  if (0 <? length errors)%nat
  then
    emit (ConsoleError [ArgStr ([10060] ++ lit " Configuration errors:"); ArgList errors]);;
    throw (Error (lit "Missing required environment variables: " ++ join (lit ", ") errors))
  else mret true.

Definition getApiBaseUrl (env : process_env) : result jsstring :=
  let apiUrl := REACT_APP_API_BASE_URL env in
  match apiUrl with
  | Some (c :: s) => Ok (c :: s)
  | _ => Throw (Error (lit "REACT_APP_API_BASE_URL environment variable is required"))
  end.

Definition getRpId (env : process_env) : jsstring :=
  match REACT_APP_RP_ID env with
  | Some (c :: s) => c :: s
  | _ => []  (* the empty string *)
  end.

Definition getRpName (env : process_env) : jsstring :=
  match REACT_APP_RP_NAME env with
  | Some (c :: s) => c :: s
  | _ => lit "Digital Identity Hub"
  end.

Definition initializeConfig (env : process_env) : io bool :=
  try_catch
    (validateConfig env;;
     emit (ConsoleLog [ArgStr ([9989] ++ lit " Configuration validated successfully")]);;
     apiUrl ← lift (getApiBaseUrl env);
     emit (ConsoleLog [ArgStr ([55356; 57104] ++ lit " API Base URL:"); ArgStr apiUrl]);;
     emit (ConsoleLog [ArgStr ([55357; 56593] ++ lit " RP ID:"); ArgStr (getRpId env)]);;
     emit (ConsoleLog [ArgStr ([55356; 57335; 65039] ++ lit "  RP Name:");
                       ArgStr (getRpName env)]);;
     mret true)
    (fun error =>
       emit (ConsoleError [ArgStr ([10060] ++ lit " Configuration validation failed:");
                           ArgStr (exn_message error)]);;
       mret false).

End Config.

(** ** src/pages/Register.jsx *)
Module Register.
Import RegExp.

Record message_table := {
  msg_required : option jsstring;
  msg_minLength : option jsstring;
  msg_pattern : option jsstring;
  msg_mismatch : option jsstring
}.

(** A rule object; an absent property is [None] ([false] for the flag). *)
Record rule := {
  required : bool;
  minLength : option N;
  maxLength : option N;
  pattern : option RegExp.t;
  messages : option message_table
}.

Definition letters_and_spaces : char_class :=
  {| negated := false; atoms := [ClassRange 65 90; ClassRange 97 122; ClassSpace] |}.

(** [[^@\s]] *)
Definition not_at_or_space : char_class :=
  {| negated := true; atoms := [ClassChar 64; ClassSpace] |}.

Definition digit : char_class := {| negated := false; atoms := [ClassDigit] |}.

(** The properties of [validationRules], in the order of the literal. *)
Definition validationRules : list (jsstring * rule) :=
  [ (lit "fullName",
     {| required := true;
        minLength := Some 2;
        maxLength := Some 50;
        (* /^[A-Za-z\s]+$/ *)
        pattern := Some {| from_start := true;
                           inner := Plus (Class letters_and_spaces);
                           to_end := true |};
        messages := Some
          {| msg_required := Some (lit "Full name is required");
             msg_minLength := Some (lit "Full name must be at least 2 characters");
             msg_pattern := Some (lit "Full name can contain only letters and spaces");
             msg_mismatch := None |} |});
    (lit "email",
     {| required := true;
        minLength := None;
        maxLength := None;
        (* /^[^@\s]+@[^@\s]+\.[^@\s]+$/ *)
        pattern := Some {| from_start := true;
                           inner := Seq (Plus (Class not_at_or_space))
                                  (Seq (Char 64)
                                  (Seq (Plus (Class not_at_or_space))
                                  (Seq (Char 46)
                                       (Plus (Class not_at_or_space)))));
                           to_end := true |};
        messages := Some
          {| msg_required := Some (lit "Email is required");
             msg_minLength := None;
             msg_pattern := Some (lit "Invalid email address");
             msg_mismatch := None |} |});
    (lit "phone",
     {| required := true;
        minLength := None;
        maxLength := None;
        (* /^\d{10}$/ *)
        pattern := Some {| from_start := true;
                           inner := Repeat 10 (Class digit);
                           to_end := true |};
        messages := Some
          {| msg_required := Some (lit "Phone number is required");
             msg_minLength := None;
             msg_pattern := Some (lit "Phone number must be exactly 10 digits");
             msg_mismatch := None |} |});
    (lit "password",
     {| required := true;
        minLength := Some 8;
        maxLength := None;
        pattern := None;
        messages := Some
          {| msg_required := Some (lit "Password is required");
             msg_minLength := Some (lit "Password must be at least 8 characters");
             msg_pattern := None;
             msg_mismatch := None |} |});
    (lit "confirmPassword",
     {| required := true;
        minLength := None;
        maxLength := None;
        pattern := None;
        messages := Some
          {| msg_required := Some (lit "Please confirm your password");
             msg_minLength := None;
             msg_pattern := None;
             msg_mismatch := Some (lit "Passwords do not match") |} |});
    (lit "agreeToTerms",
     {| required := true;
        minLength := None;
        maxLength := None;
        pattern := None;
        messages := Some
          {| msg_required := Some (lit "You must agree to the Terms & Conditions");
             msg_minLength := None;
             msg_pattern := None;
             msg_mismatch := None |} |}) ].

(** The property names every object inherits from [Object.prototype]. *)
Definition Object_prototype_names : list jsstring :=
  lit <$> [ "constructor"; "hasOwnProperty"; "isPrototypeOf";
            "propertyIsEnumerable"; "toLocaleString"; "toString"; "valueOf";
            "__proto__"; "__defineGetter__"; "__defineSetter__";
            "__lookupGetter__"; "__lookupSetter__" ]%string.

(** What such an inherited value (a function, or the prototype itself)
    answers to the property reads of [validateField]: nothing. *)
Definition inherited_object : rule :=
  {| required := false; minLength := None; maxLength := None;
     pattern := None; messages := None |}.

(** [validationRules[fieldName]]: an own property, else an inherited one,
    else [undefined] ([None]). *)
Definition get_rule (fieldName : jsstring) : option rule :=
  match assoc fieldName validationRules with
  | Some r => Some r
  | None =>
      if bool_decide (fieldName ∈ Object_prototype_names)
      then Some inherited_object
      else None
  end.

(** [rule.messages.<which>]. *)
Definition get_msg (r : rule) (which : message_table -> option jsstring) : result jsval :=
  match messages r with
  | None => Throw (TypeError (lit "Cannot read properties of undefined"))
  | Some m => Ok (from_option JStr JUndefined (which m))
  end.

(** The third parameter defaults to [{}], which is [∅] here. *)
Definition validateField (fieldName : jsstring) (value : jsval)
    (formData : gmap jsstring jsval) : result jsval :=
  match get_rule fieldName with
  | None => Ok (JStr [])
  | Some rule =>
      if required rule && negb (truthy value)
      then get_msg rule msg_required
      else
        too_short ←
          match minLength rule with
          | Some n =>
              if negb (n =? 0)
              then len ← get_length value; Ok (less_than len n)
              else Ok false
          | None => Ok false
          end;
        if (too_short : bool)
        then get_msg rule msg_minLength
        else
          if match pattern rule with
             | Some p => negb (RegExp.test p (ToString value))
             | None => false
             end
          then get_msg rule msg_pattern
          else
            if bool_decide (fieldName = lit "confirmPassword")
               && strict_neq value (prop formData (lit "password"))
            then get_msg rule msg_mismatch
            else Ok (JStr [])
  end.

(** [Object.keys(validationRules).forEach(...)], threading [errors]. *)
Fixpoint forEach {S} (names : list jsstring) (f : jsstring -> S -> result S)
    (acc : S) : result S :=
  match names with
  | [] => Ok acc
  | name :: rest => acc' ← f name acc; forEach rest f acc'
  end.

Definition validateForm (formData : gmap jsstring jsval)
    : result (gmap jsstring jsval) :=
  let errors : gmap jsstring jsval := ∅ in
  forEach validationRules.*1
    (fun fieldName errors =>
       error ← validateField fieldName (prop formData fieldName) formData;
       if truthy error
       then Ok (<[fieldName := error]> errors)
       else Ok errors)
    errors.

(** The state variables of the component that the handlers use. *)
Record store := {
  formData : gmap jsstring jsval;
  error : option json;
  formErrors : gmap jsstring jsval;
  loading : bool
}.

Definition initial_formData : gmap jsstring jsval :=
  <[lit "fullName" := JStr []]>
  (<[lit "email" := JStr []]>
  (<[lit "phone" := JStr []]>
  (<[lit "password" := JStr []]>
  (<[lit "confirmPassword" := JStr []]>
  (<[lit "agreeToTerms" := JBool false]> ∅))))).

Definition initial_store : store :=
  {| formData := initial_formData;
     error := Some (JString []);
     formErrors := ∅;
     loading := false |}.

(** The effect of a state setter on the store; other events leave it. *)
Definition apply_event (st : store) (e : event) : store :=
  match e with
  | SetFormData name value =>
      {| formData := <[name := value]> (formData st); error := error st;
         formErrors := formErrors st; loading := loading st |}
  | SetFormErrors errors =>
      {| formData := formData st; error := error st;
         formErrors := errors; loading := loading st |}
  | SetLoading b =>
      {| formData := formData st; error := error st;
         formErrors := formErrors st; loading := b |}
  | SetError m =>
      {| formData := formData st; error := m;
         formErrors := formErrors st; loading := loading st |}
  | _ => st
  end.

(** The store once a handler has finished: its updates applied in order. *)
Definition settle {A} (st : store) (run : io A) : store :=
  foldl apply_event st run.1.

(** [e.target] of a change event. *)
Record target := {
  name : jsstring;
  value : jsstring;
  type : jsstring;
  checked : bool
}.

Definition handleInputChange (e : target) : io unit :=
  emit (SetFormData (name e)
          (if bool_decide (type e = lit "checkbox")
           then JBool (checked e)
           else JStr (value e))).

(** The result object of [submitRegistration]; [message] is absent on
    success. *)
Record submission := {
  success : bool;
  message : option json
}.

Definition submitRegistration (env : Config.process_env) (server : backend)
    (data : gmap jsstring jsval) : io submission :=
  apiUrl ← lift (Config.getApiBaseUrl env);
  res ← fetch server
    {| url := apiUrl ++ lit "/auth/user/register";
       method := lit "POST";
       headers := [(lit "Content-Type", lit "application/json")];
       body := JSON_stringify
                 [ (lit "fullName", prop data (lit "fullName"));
                   (lit "email", prop data (lit "email"));
                   (lit "phone", prop data (lit "phone"));
                   (lit "password", prop data (lit "password")) ] |};
  if negb (ok res)
  then
    errorData ← lift (json_body res);
    m ← lift (get_message errorData);
    mret {| success := false;
            message := Some (or_else m (JString (lit "Registration failed"))) |}
  else mret {| success := true; message := None |}.

Definition handleSubmit (env : Config.process_env) (server : backend)
    (st : store) : io unit :=
  emit PreventDefault;;
  errors ← lift (validateForm (formData st));
  emit (SetFormErrors errors);;
  if (0 <? length (Object_keys errors))%nat
  then mret tt
  else
    emit (SetLoading true);;
    emit (SetError (Some (JString [])));;
    try_catch_finally
      (response ← submitRegistration env server (formData st);
       if success response
       then emit (Navigate (lit "/login"))
       else emit (SetError (message response)))
      (fun err =>
         emit (SetError (Some (JString
                 (lit "Registration failed. Please try again later."))));;
         emit (ConsoleError [ArgStr (lit "[Register] Network or server error:");
                             ArgExn err]))
      (emit (SetLoading false)).

End Register.

(** ** Vocabulary of the properties *)
Module Spec.
Import RegExp Register.

(** The rule set proper: the own properties of [validationRules]. *)
Definition rule_set (fieldName : jsstring) : option rule :=
  assoc fieldName validationRules.

Definition empty_or_falsy (v : jsval) : bool :=
  match v with
  | JUndefined => true
  | JBool b => negb b
  | JStr s => bool_decide (s = [])
  end.

(** "The value's length is below the minimum": only a string has one. *)
Definition length_below (v : jsval) (n : N) : bool :=
  match v with
  | JStr s => N.of_nat (length s) <? n
  | _ => false
  end.

Definition text (m : option jsstring) : jsstring := default [] m.

Definition message_of (r : rule) (which : message_table -> option jsstring) : jsstring :=
  match messages r with
  | Some m => text (which m)
  | None => []
  end.

(** The per-field algorithm, following the specification's words: the
    first failing check, in the order required, minimum length, pattern,
    password confirmation; the empty message when none fails. *)
Definition validateField_spec (fieldName : jsstring) (value : jsval)
    (formData : gmap jsstring jsval) : jsstring :=
  match rule_set fieldName with
  | None => []
  | Some r =>
      if required r && empty_or_falsy value
      then message_of r msg_required
      else if match minLength r with
              | Some n => length_below value n
              | None => false
              end
      then message_of r msg_minLength
      else if match pattern r with
              | Some p => negb (RegExp.test p (ToString value))
              | None => false
              end
      then message_of r msg_pattern
      else if bool_decide (fieldName = lit "confirmPassword")
              && negb (bool_decide (value = prop formData (lit "password")))
      then message_of r msg_mismatch
      else []
  end.

(** What the comparison of the two needs of a rule: it is required, and
    each check it configures has its message. *)
Definition well_formed_rule (fieldName : jsstring) (r : rule) : bool :=
  required r &&
  match messages r with
  | None => false
  | Some m =>
      bool_decide (is_Some (msg_required m))
      && match minLength r with
         | Some n => negb (n =? 0) && bool_decide (is_Some (msg_minLength m))
         | None => true
         end
      && match pattern r with
         | Some _ => bool_decide (is_Some (msg_pattern m))
         | None => true
         end
      && (negb (bool_decide (fieldName = lit "confirmPassword"))
          || bool_decide (is_Some (msg_mismatch m)))
  end.

(** The error map as a fold of the per-field messages over a list of
    field names. *)
Definition error_entries (fd : gmap jsstring jsval) (names : list jsstring)
    (acc : gmap jsstring jsval) : gmap jsstring jsval :=
  foldl (fun acc k =>
           let m := validateField_spec k (prop fd k) fd in
           if bool_decide (m = []) then acc else <[k := JStr m]> acc)
        acc names.

(** A field fails validation when [validateField] answers a non-empty
    message for its current value. *)
Definition fails (formData : gmap jsstring jsval) (fieldName : jsstring) : Prop :=
  exists m, validateField fieldName (prop formData fieldName) formData = Ok m
            /\ truthy m = true.

(** The Form State as the rendered controls can produce it: five strings
    and one boolean. *)
Definition is_string (v : option jsval) : Prop := exists s, v = Some (JStr s).
Definition is_boolean (v : option jsval) : Prop := exists b, v = Some (JBool b).

Definition form_state (fd : gmap jsstring jsval) : Prop :=
  is_string (fd !! lit "fullName") /\ is_string (fd !! lit "email") /\
  is_string (fd !! lit "phone") /\ is_string (fd !! lit "password") /\
  is_string (fd !! lit "confirmPassword") /\ is_boolean (fd !! lit "agreeToTerms").

(** The [name] and the possible [type]s of the inputs the component
    renders (a password field shows as [password] or [text]). *)
Definition rendered_inputs : list (jsstring * list jsstring) :=
  [ (lit "fullName", [lit "text"]);
    (lit "email", [lit "email"]);
    (lit "phone", [lit "tel"]);
    (lit "password", [lit "text"; lit "password"]);
    (lit "confirmPassword", [lit "text"; lit "password"]);
    (lit "agreeToTerms", [lit "checkbox"]) ].

Definition from_rendered_input (e : target) : Prop :=
  exists types, (name e, types) ∈ rendered_inputs /\ type e ∈ types.

(** Projections of a trace. *)
Definition fetches (t : list event) : list request :=
  omap (fun e => match e with Fetch r => Some r | _ => None end) t.

Definition navigations (t : list event) : list jsstring :=
  omap (fun e => match e with Navigate p => Some p | _ => None end) t.

Definition loading_updates (t : list event) : list bool :=
  omap (fun e => match e with SetLoading b => Some b | _ => None end) t.

Definition console_errors (t : list event) : list (list console_arg) :=
  omap (fun e => match e with ConsoleError a => Some a | _ => None end) t.

Definition console_warnings (t : list event) : list (list console_arg) :=
  omap (fun e => match e with ConsoleWarn a => Some a | _ => None end) t.

(** The request [submitRegistration] builds. *)
Definition registration_request (apiUrl : jsstring) (data : gmap jsstring jsval)
    : request :=
  {| url := apiUrl ++ lit "/auth/user/register";
     method := lit "POST";
     headers := [(lit "Content-Type", lit "application/json")];
     body := JSON_stringify
               [ (lit "fullName", prop data (lit "fullName"));
                 (lit "email", prop data (lit "email"));
                 (lit "phone", prop data (lit "phone"));
                 (lit "password", prop data (lit "password")) ] |}.

(** The events of [submitRegistration]: one request when the API base URL
    is configured, none otherwise. *)
Definition request_events (env : Config.process_env) (data : gmap jsstring jsval)
    : list event :=
  match Config.getApiBaseUrl env with
  | Ok apiUrl => [Fetch (registration_request apiUrl data)]
  | Throw _ => []
  end.

(** A network call is issued by the submit handler. *)
Definition network_call_issued (env : Config.process_env) (server : backend)
    (st : store) : Prop :=
  fetches (handleSubmit env server st).1 <> [].

(** The handler enters the submitting phase (loading set, then
    [submitRegistration] called). *)
Definition submission_attempted (env : Config.process_env) (server : backend)
    (st : store) : Prop :=
  SetLoading true ∈ (handleSubmit env server st).1.

Definition error_map_empty (st : store) : Prop :=
  validateForm (formData st) = Ok ∅.

(** The message field of a parsed body, if it has one. *)
Definition message_field (j : json) : option json :=
  match j with
  | JObject props => assoc (lit "message") props
  | _ => None
  end.

Definition generic_message : json :=
  JString (lit "Registration failed. Please try again later.").

Definition fallback_message : json := JString (lit "Registration failed").

(** What the handler does with the outcome of [submitRegistration]. *)
Definition resolution (r : result submission) : list event :=
  match r with
  | Ok response =>
      if success response
      then [Navigate (lit "/login")]
      else [SetError (message response)]
  | Throw err =>
      [SetError (Some generic_message);
       ConsoleError [ArgStr (lit "[Register] Network or server error:"); ArgExn err]]
  end.

(** The message a refused submission shows: the body's message when it
    has a truthy one, else a generic fallback. *)
Definition failure_message (parsed : result json) : json :=
  match parsed with
  | Throw _ | Ok JNull => generic_message
  | Ok j =>
      match message_field j with
      | Some m => if json_truthy m then m else fallback_message
      | None => fallback_message
      end
  end.

(** The ways a started submission ends in the [catch] block, with the
    value caught. *)
Inductive exception_path (env : Config.process_env) (server : backend)
    (data : gmap jsstring jsval) : exn -> Prop :=
| NotConfigured e :
    Config.getApiBaseUrl env = Throw e ->
    exception_path env server data e
| NetworkFailure apiUrl e :
    Config.getApiBaseUrl env = Ok apiUrl ->
    server (registration_request apiUrl data) = Throw e ->
    exception_path env server data e
| UnparseableBody apiUrl res e :
    Config.getApiBaseUrl env = Ok apiUrl ->
    server (registration_request apiUrl data) = Ok res ->
    ok res = false ->
    json_body res = Throw e ->
    exception_path env server data e
| NullBody apiUrl res e :
    Config.getApiBaseUrl env = Ok apiUrl ->
    server (registration_request apiUrl data) = Ok res ->
    ok res = false ->
    json_body res = Ok JNull ->
    get_message JNull = Throw e ->
    exception_path env server data e.

(** Scenario A of the specification: a form that passes every rule. *)
Definition scenario_A : gmap jsstring jsval :=
  <[lit "fullName" := JStr (lit "Jane Doe")]>
  (<[lit "email" := JStr (lit "jane@example.com")]>
  (<[lit "phone" := JStr (lit "0771234567")]>
  (<[lit "password" := JStr (lit "password123")]>
  (<[lit "confirmPassword" := JStr (lit "password123")]>
  (<[lit "agreeToTerms" := JBool true]> ∅))))).

Definition store_A : store :=
  {| formData := scenario_A; error := Some (JString []);
     formErrors := ∅; loading := false |}.

(** The six required-field messages of scenario B. *)
Definition six_required_messages : gmap jsstring jsval :=
  <[lit "fullName" := JStr (lit "Full name is required")]>
  (<[lit "email" := JStr (lit "Email is required")]>
  (<[lit "phone" := JStr (lit "Phone number is required")]>
  (<[lit "password" := JStr (lit "Password is required")]>
  (<[lit "confirmPassword" := JStr (lit "Please confirm your password")]>
  (<[lit "agreeToTerms" := JStr (lit "You must agree to the Terms & Conditions")]> ∅))))).

(** Environments used as examples. *)
Definition env_unset : Config.process_env :=
  {| Config.REACT_APP_API_BASE_URL := None;
     Config.REACT_APP_RP_ID := None;
     Config.REACT_APP_RP_NAME := None |}.

Definition env_configured : Config.process_env :=
  {| Config.REACT_APP_API_BASE_URL := Some (lit "https://api.example.com");
     Config.REACT_APP_RP_ID := None;
     Config.REACT_APP_RP_NAME := None |}.

(** An empty string stands for an unset variable. *)
Definition blank_is_unset (v : option jsstring) : option jsstring :=
  match v with
  | Some [] => None
  | other => other
  end.

Definition normalise (env : Config.process_env) : Config.process_env :=
  {| Config.REACT_APP_API_BASE_URL := blank_is_unset (Config.REACT_APP_API_BASE_URL env);
     Config.REACT_APP_RP_ID := blank_is_unset (Config.REACT_APP_RP_ID env);
     Config.REACT_APP_RP_NAME := blank_is_unset (Config.REACT_APP_RP_NAME env) |}.

(** Backends used as examples. *)
Definition responds (code : N) (parsed : result json) : backend :=
  fun _ => Ok {| status := code; json_body := parsed |}.

Definition unreachable : backend :=
  fun _ => Throw (TypeError (lit "Failed to fetch")).

Definition email_taken : json :=
  JObject [(lit "message", JString (lit "Email already registered"))].

End Spec.

(** ** The start-up file (src/unnamed/part_000)

    It runs [initializeConfig], drops its answer, creates the React root on
    the element with id [root] and renders the application in strict mode.
    Whether [createRoot] accepts the container is the platform's answer. *)
Module Index.

Inductive step :=
| Diagnostic (e : event)            (* console output of [initializeConfig] *)
| CreateRoot (container : jsstring) (* ReactDOM.createRoot(document.getElementById('root')) *)
| Render (strict : bool).           (* root.render(<React.StrictMode><App /></React.StrictMode>) *)

Definition main (env : Config.process_env) (createRoot : result unit)
    : list step * result unit :=
  match Config.initializeConfig env with
  | (t, Throw e) => (Diagnostic <$> t, Throw e)
  | (t, Ok _) =>
      match createRoot with
      | Throw e => ((Diagnostic <$> t) ++ [CreateRoot (lit "root")], Throw e)
      | Ok _ => ((Diagnostic <$> t) ++ [CreateRoot (lit "root"); Render true], Ok tt)
      end
  end.

End Index.

(** ** What the components of src/pages/Register.jsx render

    The element tree a render returns, with this file's own components
    ([FormField], [PasswordField]) expanded and the imported ones ([Link],
    the icons) left as component nodes. *)
Module View.

(** The functions passed as event handlers. A password toggle is the
    closure [() => setShowPassword(!showPassword)]: it carries the value it
    will set. *)
Inductive handler :=
| HandleInputChange
| HandleSubmit
| SetShowPassword (b : bool)
| SetShowConfirmPassword (b : bool).

Inductive attr :=
| AStr (s : jsstring)
| ABool (b : bool)
| ANum (n : Z)
| AVal (v : jsval)
| AHandler (h : handler)
| AUndefined.

#[warning="-register-all"]
Inductive node :=
| Element (tag : jsstring) (attrs : list (jsstring * attr)) (children : list node)
| Component (name : jsstring) (props : list (jsstring * attr)) (children : list node)
| Text (s : jsstring)
| Value (v : jsval)            (* a child [{v}] of the form's values *)
| JsonValue (v : option json). (* a child [{error}] of the banner state *)

Definition className (s : string) : jsstring * attr := (lit "className", AStr (lit s)).

Definition optional_string (o : option jsstring) : attr := from_option AStr AUndefined o.
Definition optional_number (o : option Z) : attr := from_option ANum AUndefined o.

Record FormFieldProps := {
  icon : jsstring;
  type : jsstring;
  name : jsstring;
  value : jsval;
  onChange : handler;
  placeholder : jsstring;
  error : jsval;
  required : bool;               (* defaults to false *)
  pattern : option jsstring;
  maxLength : option Z;
  inputMode : option jsstring;
  autoComplete : option jsstring;
  children : list node
}.

Definition FormField (p : FormFieldProps) : node :=
  Element (lit "div") [className "relative"]
    ([ Component (icon p) [className "absolute left-3 top-3 h-5 w-5 text-gray-400"] [];
       Element (lit "input")
         [ (lit "type", AStr (type p));
           (lit "name", AStr (name p));
           (lit "value", AVal (value p));
           (lit "onChange", AHandler (onChange p));
           (lit "placeholder", AStr (placeholder p));
           (lit "className",
            AStr (lit "input-field pl-10 "
                  ++ (if truthy (error p) then lit "border-red-500" else [])));
           (lit "required", ABool (required p));
           (lit "aria-invalid", ABool (truthy (error p)));
           (lit "aria-describedby",
            if truthy (error p) then AStr (name p ++ lit "-error") else AUndefined);
           (lit "pattern", optional_string (pattern p));
           (lit "maxLength", optional_number (maxLength p));
           (lit "inputMode", optional_string (inputMode p));
           (lit "autoComplete", optional_string (autoComplete p)) ]
         [] ]
     ++ children p
     ++ [ if truthy (error p)
          then Element (lit "span")
                 [ (lit "id", AStr (name p ++ lit "-error"));
                   className "text-red-500 text-xs absolute left-0 -bottom-5" ]
                 [Value (error p)]
          else Value (error p) ]).

Record PasswordFieldProps := {
  pw_name : jsstring;
  pw_value : jsval;
  pw_onChange : handler;
  pw_placeholder : jsstring;
  pw_error : jsval;
  showPassword : bool;
  onTogglePassword : handler;
  pw_autoComplete : option jsstring
}.

Definition PasswordField (p : PasswordFieldProps) : node :=
  FormField
    {| icon := lit "Lock";
       type := if showPassword p then lit "text" else lit "password";
       name := pw_name p;
       value := pw_value p;
       onChange := pw_onChange p;
       placeholder := pw_placeholder p;
       error := pw_error p;
       required := true;
       pattern := None;
       maxLength := None;
       inputMode := None;
       autoComplete := pw_autoComplete p;
       children :=
         [ Element (lit "button")
             [ (lit "type", AStr (lit "button"));
               (lit "onClick", AHandler (onTogglePassword p));
               className "absolute right-3 top-3 text-gray-400 hover:text-gray-600 transition-colors";
               (lit "tabIndex", ANum (-1));
               (lit "aria-label",
                AStr (if showPassword p then lit "Hide password" else lit "Show password")) ]
             [ if showPassword p
               then Component (lit "EyeOff") [className "h-5 w-5"] []
               else Component (lit "Eye") [className "h-5 w-5"] [] ] ] |}.

(** ToBoolean of the banner state. *)
Definition banner_truthy (e : option json) : bool :=
  match e with
  | Some j => json_truthy j
  | None => false
  end.

(** The two visibility flags of the component, beside its store. *)
Record visibility := {
  password_shown : bool;          (* showPassword *)
  confirmPassword_shown : bool    (* showConfirmPassword *)
}.

(** The element [Register] returns. *)
Definition Register (st : Register.store) (vis : visibility) : node :=
  let formData := Register.formData st in
  let formErrors := Register.formErrors st in
  let error := Register.error st in
  let loading := Register.loading st in
  Element (lit "div") [className "auth-background flex items-center justify-center px-4"]
  [ Element (lit "div") [className "card-elevated max-w-md w-full"]
    [ Element (lit "div") [className "text-center mb-8"]
        [ Element (lit "h1") [className "text-2xl font-bold text-slt-blue mb-2"]
            [Text (lit "Create Your IdentityHub Account")] ];
      Element (lit "form")
        [ (lit "onSubmit", AHandler HandleSubmit);
          className "space-y-6";
          (lit "noValidate", ABool true) ]
        [ (if banner_truthy error
           then Element (lit "div")
                  [ className "message-error text-sm text-center";
                    (lit "role", AStr (lit "alert")) ]
                  [JsonValue error]
           else JsonValue error);
          FormField
            {| icon := lit "User";
               type := lit "text";
               name := lit "fullName";
               value := prop formData (lit "fullName");
               onChange := HandleInputChange;
               placeholder := lit "Full Name";
               error := prop formErrors (lit "fullName");
               required := true;
               pattern := Some (lit "^[A-Za-z\s]{2,}$");
               maxLength := Some 50%Z;
               inputMode := None;
               autoComplete := None;
               children := [] |};
          FormField
            {| icon := lit "Mail";
               type := lit "email";
               name := lit "email";
               value := prop formData (lit "email");
               onChange := HandleInputChange;
               placeholder := lit "Email";
               error := prop formErrors (lit "email");
               required := true;
               pattern := None;
               maxLength := None;
               inputMode := None;
               autoComplete := Some (lit "email");
               children := [] |};
          FormField
            {| icon := lit "Phone";
               type := lit "tel";
               name := lit "phone";
               value := prop formData (lit "phone");
               onChange := HandleInputChange;
               placeholder := lit "Phone Number";
               error := prop formErrors (lit "phone");
               required := true;
               pattern := Some (lit "^\d{10}$");
               maxLength := Some 10%Z;
               inputMode := Some (lit "numeric");
               autoComplete := None;
               children := [] |};
          PasswordField
            {| pw_name := lit "password";
               pw_value := prop formData (lit "password");
               pw_onChange := HandleInputChange;
               pw_placeholder := lit "Password";
               pw_error := prop formErrors (lit "password");
               showPassword := password_shown vis;
               onTogglePassword := SetShowPassword (negb (password_shown vis));
               pw_autoComplete := Some (lit "new-password") |};
          PasswordField
            {| pw_name := lit "confirmPassword";
               pw_value := prop formData (lit "confirmPassword");
               pw_onChange := HandleInputChange;
               pw_placeholder := lit "Confirm Password";
               pw_error := prop formErrors (lit "confirmPassword");
               showPassword := confirmPassword_shown vis;
               onTogglePassword := SetShowConfirmPassword (negb (confirmPassword_shown vis));
               pw_autoComplete := Some (lit "new-password") |};
          Element (lit "div") [className "flex items-start"]
            [ Element (lit "input")
                [ (lit "type", AStr (lit "checkbox"));
                  (lit "name", AStr (lit "agreeToTerms"));
                  (lit "checked", AVal (prop formData (lit "agreeToTerms")));
                  (lit "onChange", AHandler HandleInputChange);
                  (lit "className",
                   AStr (lit "h-4 w-4 text-slt-green focus:ring-slt-green-500 border-gray-300 rounded mt-1 focus-ring "
                         ++ (if truthy (prop formErrors (lit "agreeToTerms"))
                             then lit "border-red-500" else [])));
                  (lit "aria-invalid", ABool (truthy (prop formErrors (lit "agreeToTerms"))));
                  (lit "aria-describedby",
                   if truthy (prop formErrors (lit "agreeToTerms"))
                   then AStr (lit "agreeToTerms-error") else AUndefined) ]
                [];
              Element (lit "label") [className "ml-2 block text-sm text-slt-blue"]
                [ Text (lit "I agree to"); Text (lit " ");
                  Component (lit "Link")
                    [ (lit "to", AStr (lit "/terms-and-conditions"));
                      className "text-slt-green hover:text-slt-green-600 transition-colors" ]
                    [Text (lit "Terms & Conditions")] ];
              (if truthy (prop formErrors (lit "agreeToTerms"))
               then Element (lit "span")
                      [ (lit "id", AStr (lit "agreeToTerms-error"));
                        className "text-red-600 text-xs ml-2" ]
                      [Value (prop formErrors (lit "agreeToTerms"))]
               else Value (prop formErrors (lit "agreeToTerms"))) ];
          Element (lit "button")
            [ (lit "type", AStr (lit "submit"));
              className "btn-secondary w-full flex items-center justify-center";
              (lit "disabled", ABool loading);
              (lit "aria-busy", ABool loading) ]
            [ (if loading
               then Element (lit "svg")
                      [ className "animate-spin h-5 w-5 mr-2 text-white";
                        (lit "xmlns", AStr (lit "http://www.w3.org/2000/svg"));
                        (lit "fill", AStr (lit "none"));
                        (lit "viewBox", AStr (lit "0 0 24 24")) ]
                      [ Element (lit "circle")
                          [ className "opacity-25";
                            (lit "cx", AStr (lit "12")); (lit "cy", AStr (lit "12"));
                            (lit "r", AStr (lit "10"));
                            (lit "stroke", AStr (lit "currentColor"));
                            (lit "strokeWidth", AStr (lit "4")) ]
                          [];
                        Element (lit "path")
                          [ className "opacity-75";
                            (lit "fill", AStr (lit "currentColor"));
                            (lit "d", AStr (lit "M4 12a8 8 0 018-8v8z")) ]
                          [] ]
               else Value (JBool loading));
              Text (lit "Register") ];
          Element (lit "div") [className "text-center"]
            [ Element (lit "div") [className "text-slt-blue"]
                [ Text (lit "Already have an account?"); Text (lit " ");
                  Component (lit "Link")
                    [ (lit "to", AStr (lit "/login"));
                      className "text-slt-green hover:text-slt-green-600 transition-colors" ]
                    [Text (lit "Login here")] ] ] ] ] ].

(** An attribute of an element; [undefined] counts as absent. *)
Definition get_attr (key : string) (attrs : list (jsstring * attr)) : option attr :=
  match assoc (lit key) attrs with
  | Some AUndefined | None => None
  | Some a => Some a
  end.

(** The elements of a tree with a given tag, in document order, by their
    attributes. *)
Fixpoint elements (tag : jsstring) (n : node) : list (list (jsstring * attr)) :=
  match n with
  | Element t attrs children =>
      (if bool_decide (t = tag) then [attrs] else [])
      ++ flat_map (elements tag) children
  | Component _ _ children => flat_map (elements tag) children
  | _ => []
  end.

(** The ids present in a tree. *)
Fixpoint ids (n : node) : list jsstring :=
  match n with
  | Element _ attrs children =>
      match get_attr "id" attrs with
      | Some (AStr i) => [i]
      | _ => []
      end ++ flat_map ids children
  | Component _ _ children => flat_map ids children
  | _ => []
  end.

(** The change event an [input] element dispatches: its [name] and [type]
    attributes, with the value typed or the box state. *)
Definition change_of (attrs : list (jsstring * attr)) (typed : jsstring) (box : bool)
    : option Register.target :=
  match get_attr "name" attrs, get_attr "type" attrs with
  | Some (AStr n), Some (AStr t) =>
      Some {| Register.name := n; Register.value := typed;
              Register.type := t; Register.checked := box |}
  | _, _ => None
  end.

(** What a user agent reads of an [input] element. *)
Record control := {
  c_name : option attr;
  c_type : option attr;
  c_value : option attr;
  c_checked : option attr;
  c_onChange : option attr;
  c_required : option attr;
  c_invalid : option attr;       (* aria-invalid *)
  c_describedby : option attr    (* aria-describedby *)
}.

Definition control_of (attrs : list (jsstring * attr)) : control :=
  {| c_name := get_attr "name" attrs;
     c_type := get_attr "type" attrs;
     c_value := get_attr "value" attrs;
     c_checked := get_attr "checked" attrs;
     c_onChange := get_attr "onChange" attrs;
     c_required := get_attr "required" attrs;
     c_invalid := get_attr "aria-invalid" attrs;
     c_describedby := get_attr "aria-describedby" attrs |}.

Definition controls (tree : node) : list control :=
  control_of <$> elements (lit "input") tree.

Definition control_name (c : control) : option jsstring :=
  match c_name c with
  | Some (AStr n) => Some n
  | _ => None
  end.

(** What a user agent reads of a [button] element. *)
Record button := {
  b_type : option attr;
  b_onClick : option attr;
  b_disabled : option attr;
  b_busy : option attr;          (* aria-busy *)
  b_label : option attr          (* aria-label *)
}.

Definition button_of (attrs : list (jsstring * attr)) : button :=
  {| b_type := get_attr "type" attrs;
     b_onClick := get_attr "onClick" attrs;
     b_disabled := get_attr "disabled" attrs;
     b_busy := get_attr "aria-busy" attrs;
     b_label := get_attr "aria-label" attrs |}.

Definition buttons (tree : node) : list button :=
  button_of <$> elements (lit "button") tree.

(** The [div] elements with [role="alert"]. *)
Definition is_alert (attrs : list (jsstring * attr)) : bool :=
  match get_attr "role" attrs with
  | Some (AStr r) => bool_decide (r = lit "alert")
  | _ => false
  end.

Definition alerts (tree : node) : list (list (jsstring * attr)) :=
  filter (fun attrs => is_alert attrs = true) (elements (lit "div") tree).

End View.

(** ** Vocabulary of the further properties *)
Module Props.
Import Register Spec.

Definition is_letter (c : N) : bool :=
  ((65 <=? c) && (c <=? 90)) || ((97 <=? c) && (c <=? 122)).

(** A code unit the email pattern allows beside [@] and [.]: neither [@]
    nor white space. *)
Definition email_unit (c : N) : bool :=
  negb ((c =? 64) || RegExp.is_white_space c).

Definition email_part (s : jsstring) : Prop :=
  s <> [] /\ Forall (fun c => email_unit c = true) s.

(** A Form State that every rule accepts. *)
Definition submittable (fd : gmap jsstring jsval) : Prop :=
  exists fullName a b c phone password : jsstring,
    fd !! lit "fullName" = Some (JStr fullName)
    /\ (2 <= length fullName)%nat
    /\ Forall (fun u => is_letter u || RegExp.is_white_space u = true) fullName
    /\ fd !! lit "email" = Some (JStr (a ++ [64] ++ b ++ [46] ++ c))
    /\ email_part a /\ email_part b /\ email_part c
    /\ fd !! lit "phone" = Some (JStr phone)
    /\ length phone = 10%nat
    /\ Forall (fun u => RegExp.is_digit u = true) phone
    /\ fd !! lit "password" = Some (JStr password)
    /\ (8 <= length password)%nat
    /\ fd !! lit "confirmPassword" = Some (JStr password)
    /\ fd !! lit "agreeToTerms" = Some (JBool true).

(** One completed run of a handler of the form: a change event of a
    rendered input, or a submit against some environment and backend. *)
Inductive step : store -> store -> Prop :=
| ChangeStep st e :
    from_rendered_input e ->
    step st (settle st (handleInputChange e))
| SubmitStep st env server :
    step st (settle st (handleSubmit env server st)).

(** The stores the component reaches from its initial one. *)
Inductive reachable : store -> Prop :=
| ReachInitial : reachable initial_store
| ReachStep st st' : reachable st -> step st st' -> reachable st'.

End Props.

(** ** Lemmas on regular expressions *)

Section RegExpFacts.
Import RegExp.

Lemma nullable_Matches r : nullable r = true <-> Matches r [].
Proof.
  split.
  - induction r; simpl; intros H; try discriminate.
    + constructor.
    + apply andb_true_iff in H as [H1 H2].
      change (@nil N) with (@nil N ++ []). constructor; auto.
    + apply orb_true_iff in H as [H | H]; [apply MAltL | apply MAltR]; auto.
    + constructor.
  - intros H. remember [] as s eqn:Hs. induction H; subst; simpl; auto; try discriminate.
    + apply app_eq_nil in Hs as [-> ->]. rewrite IHMatches1, IHMatches2; auto.
    + rewrite IHMatches; auto.
    + rewrite IHMatches; auto. apply orb_true_r.
Qed.

(** A non-empty word of [Star r] starts with a non-empty word of [r]. *)
Lemma Matches_Star_cons r c s :
  Matches (Star r) (c :: s) ->
  exists s1 s2, s = s1 ++ s2 /\ Matches r (c :: s1) /\ Matches (Star r) s2.
Proof.
  intros H. remember (Star r) as r' eqn:Hr. remember (c :: s) as w eqn:Hw.
  revert c s Hw. induction H; intros c0 s0 Hw; try discriminate.
  injection Hr as ->.
  destruct s1 as [|c1 s1].
  - simpl in Hw. apply IHMatches2; auto.
  - simpl in Hw. injection Hw as -> <-. exists s1, s2. auto.
Qed.

Lemma deriv_Matches r : forall c s, Matches (deriv c r) s <-> Matches r (c :: s).
Proof.
  induction r; intros c s; simpl.
  - split; intros H; inversion H.
  - split; intros H; inversion H.
  - destruct (class_has cl c) eqn:Hc; split; intros H; inversion H; subst.
    + now constructor.
    + constructor.
    + congruence.
  - assert (Hseq : Matches (Seq (deriv c r1) r2) s <->
                   exists s1 s2, s = s1 ++ s2 /\ Matches r1 (c :: s1) /\ Matches r2 s2).
    { split.
      - intros H; inversion H; subst. exists s1, s2. rewrite <- IHr1. auto.
      - intros (s1 & s2 & -> & H1 & H2). constructor; auto. now apply IHr1. }
    assert (Hfull : Matches (Seq r1 r2) (c :: s) <->
                    (exists s1 s2, s = s1 ++ s2 /\ Matches r1 (c :: s1) /\ Matches r2 s2)
                    \/ (Matches r1 [] /\ Matches r2 (c :: s))).
    { split.
      - intros H; inversion H; subst. destruct s1 as [|c1 s1]; simpl in *.
        + right. subst. auto.
        + left. match goal with E : _ :: _ = _ :: _ |- _ => injection E as -> <- end.
          eauto.
      - intros [(s1 & s2 & -> & H1 & H2) | [H1 H2]].
        + change (c :: s1 ++ s2) with ((c :: s1) ++ s2). now constructor.
        + change (c :: s) with ([] ++ c :: s). now constructor. }
    rewrite Hfull. destruct (nullable r1) eqn:Hn.
    + split.
      * intros H; inversion H; subst.
        -- left. now apply Hseq.
        -- right. split; [now apply nullable_Matches | now apply IHr2].
      * intros [H | [H1 H2]].
        -- apply MAltL. now apply Hseq.
        -- apply MAltR. now apply IHr2.
    + rewrite Hseq. split; [auto|].
      intros [H | [H1 _]]; [auto|].
      apply nullable_Matches in H1. congruence.
  - split; intros H; inversion H; subst.
    + apply MAltL. now apply IHr1.
    + apply MAltR. now apply IHr2.
    + apply MAltL. now apply IHr1.
    + apply MAltR. now apply IHr2.
  - split.
    + intros H; inversion H; subst.
      change (c :: s1 ++ s2) with ((c :: s1) ++ s2).
      constructor; auto. now apply IHr.
    + intros H. apply Matches_Star_cons in H as (s1 & s2 & -> & H1 & H2).
      constructor; auto. now apply IHr.
Qed.

Lemma accepts_Matches : forall s r, accepts r s = true <-> Matches r s.
Proof.
  induction s as [|c s IH]; intros r; simpl.
  - apply nullable_Matches.
  - rewrite IH. apply deriv_Matches.
Qed.

End RegExpFacts.

(** ** Per-field validation *)

Section FieldValidation.
Import RegExp Register Spec.

Lemma assoc_elem_of {V} (k : jsstring) (l : list (jsstring * V)) v :
  assoc k l = Some v -> (k, v) ∈ l.
Proof.
  induction l as [|[k' v'] l IH]; simpl; [discriminate|].
  case_bool_decide as Hk.
  - intros [= <-]. subst. left.
  - intros H. right. auto.
Qed.

Lemma assoc_None_not_key {V} (k : jsstring) (l : list (jsstring * V)) :
  assoc k l = None <-> k ∉ l.*1.
Proof.
  induction l as [|[k' v'] l IH]; simpl.
  - split; [intros _; apply not_elem_of_nil | done].
  - rewrite not_elem_of_cons. case_bool_decide as Hk.
    + subst. split; [discriminate | intros [? _]; done].
    + rewrite IH. split; [intros ?; split; [congruence | done] | intros [_ ?]; done].
Qed.

Lemma rules_well_formed :
  forallb (fun '(f, r) => well_formed_rule f r) validationRules = true.
Proof. vm_compute. reflexivity. Qed.

Lemma own_rule_well_formed f r :
  assoc f validationRules = Some r -> well_formed_rule f r = true.
Proof.
  intros H%assoc_elem_of.
  pose proof rules_well_formed as Hall.
  rewrite forallb_forall in Hall.
  apply (Hall (f, r)). now apply list_elem_of_In.
Qed.

Lemma falsy_is_empty_or_falsy v : negb (truthy v) = empty_or_falsy v.
Proof. destruct v as [|b|s]; simpl; auto. apply negb_involutive. Qed.

Lemma truthy_length v :
  truthy v = true -> forall n, exists len, get_length v = Ok len /\ less_than len n = length_below v n.
Proof.
  destruct v as [|b|s]; simpl; intros H n; try discriminate; eauto.
Qed.

(** On a field of the rule set the code computes what the specification's
    cascade describes, and never throws. *)
Lemma validateField_own f r v fd :
  assoc f validationRules = Some r ->
  validateField f v fd = Ok (JStr (validateField_spec f v fd)).
Proof.
  intros Hr. pose proof (own_rule_well_formed _ _ Hr) as Hwf.
  unfold validateField, get_rule, validateField_spec, rule_set. rewrite Hr.
  clear Hr. unfold well_formed_rule in Hwf.
  destruct r as [req minL maxL pat [[mreq mmin mpat mmis]|]]; simpl in Hwf |- *;
    [|now rewrite andb_false_r in Hwf].
  apply andb_true_iff in Hwf as [-> Hwf].
  apply andb_true_iff in Hwf as [Hwf Hmis_ok].
  apply andb_true_iff in Hwf as [Hwf Hpat_ok].
  apply andb_true_iff in Hwf as [Hreq_ok Hmin_ok].
  assert (Hnone : forall P : Prop, bool_decide (is_Some (@None jsstring)) = true -> P).
  { intros P H. apply bool_decide_eq_true in H. destruct H; discriminate. }
  unfold get_msg, message_of; simpl.
  rewrite falsy_is_empty_or_falsy.
  destruct (empty_or_falsy v) eqn:Hv; simpl.
  { destruct mreq; simpl; [reflexivity | now apply Hnone]. }
  assert (Htr : truthy v = true).
  { rewrite <- falsy_is_empty_or_falsy in Hv. now apply negb_false_iff. }
  assert (Hshort :
    (match minL with
     | Some n => if negb (n =? 0)
                 then get_length v ≫= (fun len => Ok (less_than len n))
                 else Ok false
     | None => Ok false
     end) = Ok (match minL with Some n => length_below v n | None => false end)).
  { destruct minL as [n|]; [|reflexivity].
    apply andb_true_iff in Hmin_ok as [-> _].
    destruct (truthy_length v Htr n) as (len & -> & <-). reflexivity. }
  rewrite Hshort. simpl.
  destruct (match minL with Some n => length_below v n | None => false end) eqn:Hmin.
  { destruct minL as [n|]; [|discriminate].
    apply andb_true_iff in Hmin_ok as [_ Hmin_ok].
    destruct mmin; [reflexivity | now apply Hnone]. }
  destruct (match pat with Some p => negb (test p (ToString v)) | None => false end) eqn:Hpat.
  { destruct pat as [p|]; [|discriminate].
    destruct mpat; [reflexivity | now apply Hnone]. }
  unfold strict_neq.
  destruct (bool_decide (f = lit "confirmPassword") &&
            negb (bool_decide (v = prop fd (lit "password")))) eqn:Hmis; [|reflexivity].
  apply andb_true_iff in Hmis as [Hf _]. rewrite Hf in Hmis_ok. simpl in Hmis_ok.
  destruct mmis; [reflexivity | now apply Hnone].
Qed.

(** A name outside the rule set: no error, whether the lookup finds
    nothing or a property inherited from [Object.prototype]. *)
Lemma validateField_other f v fd :
  assoc f validationRules = None ->
  validateField f v fd = Ok (JStr []).
Proof.
  intros Hr. unfold validateField, get_rule. rewrite Hr.
  case_bool_decide as Hin; [|reflexivity].
  simpl. case_bool_decide as Hf; [|reflexivity].
  subst f. vm_compute in Hr. discriminate.
Qed.

Lemma validateField_spec_other f v fd :
  assoc f validationRules = None -> validateField_spec f v fd = [].
Proof. intros Hr. unfold validateField_spec, rule_set. now rewrite Hr. Qed.

Lemma validateField_total f v fd :
  validateField f v fd = Ok (JStr (validateField_spec f v fd)).
Proof.
  destruct (assoc f validationRules) as [r|] eqn:Hr.
  - eapply validateField_own; eauto.
  - rewrite validateField_other, validateField_spec_other; auto.
Qed.

End FieldValidation.

(** ** Full-form validation *)

Section FormValidation.
Import RegExp Register Spec.

Lemma forEach_error_entries fd names acc :
  forEach names
    (fun fieldName errors =>
       error ← validateField fieldName (prop fd fieldName) fd;
       if truthy error then Ok (<[fieldName := error]> errors) else Ok errors)
    acc
  = Ok (error_entries fd names acc).
Proof.
  revert acc. induction names as [|k names IH]; intros acc; simpl; [reflexivity|].
  rewrite validateField_total. simpl.
  destruct (bool_decide (validateField_spec k (prop fd k) fd = [])); simpl; apply IH.
Qed.

Lemma validateForm_error_entries fd :
  validateForm fd = Ok (error_entries fd validationRules.*1 ∅).
Proof. apply forEach_error_entries. Qed.

Lemma error_entries_lookup fd names : forall acc k,
  error_entries fd names acc !! k =
    if bool_decide (k ∈ names /\ validateField_spec k (prop fd k) fd <> [])
    then Some (JStr (validateField_spec k (prop fd k) fd))
    else acc !! k.
Proof.
  unfold error_entries.
  induction names as [|n names IH]; intros acc k; cbn [foldl].
  - rewrite bool_decide_eq_false_2; [reflexivity|].
    intros [H _]. now apply not_elem_of_nil in H.
  - rewrite IH. cbv zeta.
    set (m := validateField_spec k (prop fd k) fd).
    destruct (decide (k ∈ names /\ m <> [])) as [Hrest|Hrest].
    + rewrite !bool_decide_eq_true_2; [reflexivity | | done].
      destruct Hrest. split; [now right | done].
    + rewrite (bool_decide_eq_false_2 _ Hrest).
      destruct (decide (n = k)) as [->|Hne].
      * fold m. destruct (decide (m = [])) as [Hm|Hm].
        -- rewrite (bool_decide_eq_true_2 _ Hm).
           rewrite bool_decide_eq_false_2; [reflexivity | tauto].
        -- rewrite (bool_decide_eq_false_2 _ Hm), lookup_insert_eq.
           rewrite bool_decide_eq_true_2; [reflexivity | split; [left | done]].
      * rewrite (bool_decide_eq_false_2 (k ∈ n :: names /\ _)).
        2:{ intros [Hin ?]. apply elem_of_cons in Hin as [->|?]; tauto. }
        destruct (bool_decide (validateField_spec n (prop fd n) fd = []));
          [reflexivity | now apply lookup_insert_ne].
Qed.

(** The error map has, for each field, the field's message when it is not
    empty, and nothing otherwise. *)
Lemma validateForm_lookup fd :
  exists errors, validateForm fd = Ok errors /\
    forall k, errors !! k =
      if bool_decide (validateField_spec k (prop fd k) fd = [])
      then None
      else Some (JStr (validateField_spec k (prop fd k) fd)).
Proof.
  eexists. split; [apply validateForm_error_entries|].
  intros k. rewrite error_entries_lookup, lookup_empty.
  case_bool_decide as Hk.
  - destruct Hk as [_ Hm]. now rewrite bool_decide_eq_false_2.
  - case_bool_decide as Hm; [reflexivity|].
    exfalso. apply Hk. split; [|done].
    destruct (assoc k validationRules) eqn:Hr.
    + apply assoc_elem_of in Hr. apply list_elem_of_fmap. now exists (k, r).
    + now rewrite validateField_spec_other in Hm.
Qed.

Lemma truthy_JStr s : truthy (JStr s) = true <-> s <> [].
Proof.
  simpl. rewrite negb_true_iff. split.
  - intros H%bool_decide_eq_false. done.
  - intros H. now apply bool_decide_eq_false.
Qed.

Lemma fails_iff fd k : fails fd k <-> validateField_spec k (prop fd k) fd <> [].
Proof.
  unfold fails. rewrite validateField_total. split.
  - intros (m & [= <-] & H). now apply truthy_JStr.
  - intros H. eexists. split; [reflexivity|]. now apply truthy_JStr.
Qed.

Lemma Object_keys_nonempty {V} (m : gmap jsstring V) :
  (0 <? length (Object_keys m))%nat = negb (bool_decide (m = ∅)).
Proof.
  unfold Object_keys. rewrite length_fmap.
  destruct (map_to_list m) as [|x l] eqn:H.
  - apply map_to_list_empty_iff in H. subst. reflexivity.
  - simpl. symmetry. apply negb_true_iff, bool_decide_eq_false.
    intros ->. now rewrite map_to_list_empty in H.
Qed.

End FormValidation.

(** ** The submit handler *)

Ltac io_simpl :=
  cbv beta iota zeta delta
    [mbind mret io_bind io_ret result_bind result_ret lift emit throw fetch
     try_catch try_catch_finally fst snd];
  cbn [app].

Section Submission.
Import RegExp Register Spec.
Variables (env : Config.process_env) (server : backend) (st : store).

Lemma handleSubmit_invalid errors :
  validateForm (formData st) = Ok errors ->
  errors <> ∅ ->
  handleSubmit env server st = ([PreventDefault; SetFormErrors errors], Ok tt).
Proof.
  intros Hv Hne. unfold handleSubmit. rewrite Hv. io_simpl.
  rewrite Object_keys_nonempty, bool_decide_eq_false_2 by done. reflexivity.
Qed.

Lemma handleSubmit_valid :
  validateForm (formData st) = Ok ∅ ->
  handleSubmit env server st =
    ([PreventDefault; SetFormErrors ∅; SetLoading true; SetError (Some (JString []))]
       ++ (submitRegistration env server (formData st)).1
       ++ resolution (submitRegistration env server (formData st)).2
       ++ [SetLoading false],
     Ok tt).
Proof.
  intros Hv. unfold handleSubmit. rewrite Hv. io_simpl.
  rewrite Object_keys_nonempty, bool_decide_eq_true_2 by done. cbn [negb].
  destruct (submitRegistration env server (formData st)) as [t [[[] m]|e]];
    io_simpl; cbn [success message resolution];
    rewrite <- ?app_assoc; reflexivity.
Qed.

(** The outcomes of [submitRegistration]. *)
Lemma submitRegistration_not_configured data e :
  Config.getApiBaseUrl env = Throw e ->
  submitRegistration env server data = ([], Throw e).
Proof. intros H. unfold submitRegistration. rewrite H. reflexivity. Qed.

Lemma submitRegistration_rejected data apiUrl e :
  Config.getApiBaseUrl env = Ok apiUrl ->
  server (registration_request apiUrl data) = Throw e ->
  submitRegistration env server data = ([Fetch (registration_request apiUrl data)], Throw e).
Proof.
  intros H1 H2. unfold submitRegistration. rewrite H1. io_simpl.
  unfold registration_request in H2. rewrite H2. reflexivity.
Qed.

Lemma submitRegistration_ok data apiUrl res :
  Config.getApiBaseUrl env = Ok apiUrl ->
  server (registration_request apiUrl data) = Ok res ->
  ok res = true ->
  submitRegistration env server data =
    ([Fetch (registration_request apiUrl data)], Ok {| success := true; message := None |}).
Proof.
  intros H1 H2 H3. unfold submitRegistration. rewrite H1. io_simpl.
  unfold registration_request in H2. rewrite H2, H3. reflexivity.
Qed.

Lemma submitRegistration_unparseable data apiUrl res e :
  Config.getApiBaseUrl env = Ok apiUrl ->
  server (registration_request apiUrl data) = Ok res ->
  ok res = false ->
  json_body res = Throw e ->
  submitRegistration env server data = ([Fetch (registration_request apiUrl data)], Throw e).
Proof.
  intros H1 H2 H3 H4. unfold submitRegistration. rewrite H1. io_simpl.
  unfold registration_request in H2. rewrite H2, H3, H4. reflexivity.
Qed.

Lemma submitRegistration_null data apiUrl res :
  Config.getApiBaseUrl env = Ok apiUrl ->
  server (registration_request apiUrl data) = Ok res ->
  ok res = false ->
  json_body res = Ok JNull ->
  submitRegistration env server data =
    ([Fetch (registration_request apiUrl data)], get_message JNull ≫= fun _ => Ok {| success := true; message := None |}).
Proof.
  intros H1 H2 H3 H4. unfold submitRegistration. rewrite H1. io_simpl.
  unfold registration_request in H2. rewrite H2, H3, H4. reflexivity.
Qed.

Lemma submitRegistration_refused data apiUrl res j :
  Config.getApiBaseUrl env = Ok apiUrl ->
  server (registration_request apiUrl data) = Ok res ->
  ok res = false ->
  json_body res = Ok j ->
  j <> JNull ->
  submitRegistration env server data =
    ([Fetch (registration_request apiUrl data)],
     Ok {| success := false;
           message := Some (or_else (message_field j) fallback_message) |}).
Proof.
  intros H1 H2 H3 H4 H5. unfold submitRegistration. rewrite H1. io_simpl.
  unfold registration_request in H2. rewrite H2, H3, H4. io_simpl.
  destruct j; try reflexivity. done.
Qed.

Lemma submitRegistration_exception_path data e :
  exception_path env server data e ->
  exists t, submitRegistration env server data = (t, Throw e)
            /\ fetches t = match Config.getApiBaseUrl env with
                           | Ok apiUrl => [registration_request apiUrl data]
                           | Throw _ => []
                           end.
Proof.
  intros [e' H | apiUrl e' H1 H2 | apiUrl res e' H1 H2 H3 H4 | apiUrl res e' H1 H2 H3 H4 H5].
  - rewrite (submitRegistration_not_configured _ _ H), H. eauto.
  - rewrite (submitRegistration_rejected _ _ _ H1 H2), H1. eauto.
  - rewrite (submitRegistration_unparseable _ _ _ _ H1 H2 H3 H4), H1. eauto.
  - rewrite (submitRegistration_null _ _ _ H1 H2 H3 H4), H1, H5. eauto.
Qed.

Lemma submitRegistration_events data :
  (submitRegistration env server data).1 = request_events env data.
Proof.
  unfold submitRegistration, request_events.
  destruct (Config.getApiBaseUrl env) as [apiUrl|e]; [|reflexivity]. io_simpl.
  fold (registration_request apiUrl data).
  destruct (server (registration_request apiUrl data)) as [res|e1]; [|reflexivity].
  destruct (ok res); [reflexivity|]. io_simpl.
  destruct (json_body res) as [j|e2]; [|reflexivity]. io_simpl.
  destruct (get_message j); reflexivity.
Qed.

Lemma handleSubmit_events_valid :
  validateForm (formData st) = Ok ∅ ->
  (handleSubmit env server st).1 =
    [PreventDefault; SetFormErrors ∅; SetLoading true; SetError (Some (JString []))]
      ++ request_events env (formData st)
      ++ resolution (submitRegistration env server (formData st)).2
      ++ [SetLoading false].
Proof.
  intros Hv. rewrite (handleSubmit_valid Hv). cbn [fst].
  now rewrite submitRegistration_events.
Qed.

Lemma is_set_getApiBaseUrl :
  Config.is_set (Config.REACT_APP_API_BASE_URL env) = true
  <-> exists apiUrl, Config.getApiBaseUrl env = Ok apiUrl.
Proof.
  unfold Config.getApiBaseUrl, Config.is_set.
  destruct (Config.REACT_APP_API_BASE_URL env) as [[|c s]|]; split;
    try discriminate; eauto; intros [? [=]].
Qed.

Lemma not_set_getApiBaseUrl :
  Config.is_set (Config.REACT_APP_API_BASE_URL env) = false ->
  Config.getApiBaseUrl env =
    Throw (Error (lit "REACT_APP_API_BASE_URL environment variable is required")).
Proof.
  unfold Config.getApiBaseUrl, Config.is_set.
  destruct (Config.REACT_APP_API_BASE_URL env) as [[|c s]|]; try discriminate; reflexivity.
Qed.

Lemma validateForm_total : exists errors, validateForm (formData st) = Ok errors.
Proof. eexists. apply validateForm_error_entries. Qed.

(** After the handler the error map in the store is the one just
    computed. *)
Lemma formErrors_after_submit errors :
  validateForm (formData st) = Ok errors ->
  formErrors (settle st (handleSubmit env server st)) = errors.
Proof.
  intros Hv. unfold settle. destruct (decide (errors = ∅)) as [->|Hne].
  - rewrite (handleSubmit_events_valid Hv). unfold request_events.
    destruct (Config.getApiBaseUrl env);
      destruct (submitRegistration env server (formData st)).2 as [[[] m]|e1];
      reflexivity.
  - rewrite (handleSubmit_invalid _ Hv Hne). reflexivity.
Qed.

(** What a started submission leaves behind, by the outcome of
    [submitRegistration]. *)
Lemma settle_valid :
  validateForm (formData st) = Ok ∅ ->
  settle st (handleSubmit env server st) =
    {| formData := formData st;
       error := match (submitRegistration env server (formData st)).2 with
                | Ok response =>
                    if success response then Some (JString []) else message response
                | Throw _ => Some generic_message
                end;
       formErrors := ∅;
       loading := false |}.
Proof.
  intros Hv. unfold settle. rewrite (handleSubmit_events_valid Hv).
  unfold request_events.
  destruct (Config.getApiBaseUrl env);
    destruct (submitRegistration env server (formData st)).2 as [[[] m]|e1];
    reflexivity.
Qed.

Lemma projections_valid :
  validateForm (formData st) = Ok ∅ ->
  let t := (handleSubmit env server st).1 in
  let r := (submitRegistration env server (formData st)).2 in
  fetches t = fetches (request_events env (formData st))
  /\ navigations t = match r with
                     | Ok response => if success response then [lit "/login"] else []
                     | Throw _ => []
                     end
  /\ console_errors t = match r with
                        | Ok _ => []
                        | Throw e =>
                            [[ArgStr (lit "[Register] Network or server error:");
                              ArgExn e]]
                        end
  /\ loading_updates t = [true; false]
  /\ last t = Some (SetLoading false).
Proof.
  intros Hv. cbv zeta. rewrite (handleSubmit_events_valid Hv).
  rewrite !app_assoc, last_snoc, <- !app_assoc.
  unfold request_events.
  destruct (Config.getApiBaseUrl env);
    destruct (submitRegistration env server (formData st)).2 as [[[] m]|e1];
    repeat split; reflexivity.
Qed.

Lemma or_else_failure_message j :
  j <> JNull ->
  or_else (message_field j) fallback_message = failure_message (Ok j).
Proof. destruct j; intros H; try reflexivity. done. Qed.

End Submission.

(** ** Patterns of the rule table *)

Section Patterns.
Import RegExp Register Spec.

Lemma Matches_Empty_inv s : Matches Empty s <-> s = [].
Proof. split; [intros H; now inversion H | intros ->; constructor]. Qed.

Lemma Matches_Seq_Empty_l r s : Matches (Seq Empty r) s <-> Matches r s.
Proof.
  split.
  - intros H. inversion H as [| |r1 r2 s1 s2 H1 H2| | | |]; subst.
    apply Matches_Empty_inv in H1 as ->. exact H2.
  - intros H. change s with ([] ++ s). constructor; [constructor | exact H].
Qed.

Lemma Matches_Seq_Empty_r r s : Matches (Seq r Empty) s <-> Matches r s.
Proof.
  split.
  - intros H. inversion H as [| |r1 r2 s1 s2 H1 H2| | | |]; subst.
    apply Matches_Empty_inv in H2 as ->. now rewrite app_nil_r.
  - intros H. rewrite <- (app_nil_r s). constructor; [exact H | constructor].
Qed.

(** A pattern with both anchors tests the whole string. *)
Lemma test_anchored p s :
  from_start p = true -> to_end p = true ->
  test p s = true <-> Matches (inner p) s.
Proof.
  intros H1 H2. unfold test. rewrite H1, H2, accepts_Matches.
  now rewrite Matches_Seq_Empty_l, Matches_Seq_Empty_r.
Qed.

Lemma Matches_Class_cons cl r s :
  Matches (Seq (Class cl) r) s <->
  exists c s', s = c :: s' /\ class_has cl c = true /\ Matches r s'.
Proof.
  split.
  - intros H. inversion H as [| |r1 r2 s1 s2 H1 H2| | | |]; subst.
    inversion H1; subst. simpl. eauto.
  - intros (c & s' & -> & Hc & Hr). change (c :: s') with ([c] ++ s').
    constructor; [now constructor | exact Hr].
Qed.

Lemma Matches_Repeat_Class cl : forall n s,
  Matches (Repeat n (Class cl)) s <->
  length s = n /\ Forall (fun c => class_has cl c = true) s.
Proof.
  induction n as [|n IH]; intros s; simpl.
  - rewrite Matches_Empty_inv. split.
    + intros ->. auto.
    + intros [H _]. now apply nil_length_inv.
  - rewrite Matches_Class_cons. split.
    + intros (c & s' & -> & Hc & Hr). apply IH in Hr as [<- Hall]. auto.
    + intros [Hlen Hall]. destruct s as [|c s']; [discriminate|].
      inversion Hall; subst. exists c, s'. repeat split; auto.
      apply IH. split; [now injection Hlen | assumption].
Qed.

Lemma class_has_digit c : class_has digit c = is_digit c.
Proof. unfold class_has. simpl. apply orb_false_r. Qed.

Lemma phone_spec v fd :
  validateField_spec (lit "phone") v fd =
    if empty_or_falsy v then lit "Phone number is required"
    else if negb (test {| from_start := true; inner := Repeat 10 (Class digit); to_end := true |}
                    (ToString v))
    then lit "Phone number must be exactly 10 digits"
    else [].
Proof. reflexivity. Qed.

Lemma ten_digits_test s :
  test {| from_start := true; inner := Repeat 10 (Class digit); to_end := true |} s = true
  <-> length s = 10%nat /\ Forall (fun c => is_digit c = true) s.
Proof.
  rewrite test_anchored by reflexivity. cbn [inner].
  rewrite Matches_Repeat_Class. split; intros [Hl Hall]; (split; [exact Hl|]);
    eapply Forall_impl; eauto; intros c Hc; simpl in *;
    [now rewrite <- class_has_digit | now rewrite class_has_digit].
Qed.

End Patterns.

(** ** The Form State is typed *)

Section FormState.
Import Register Spec.

Lemma initial_form_state : form_state initial_formData.
Proof. repeat split; eexists; vm_compute; reflexivity. Qed.

Lemma form_state_insert_string fd k s :
  form_state fd -> k <> lit "agreeToTerms" ->
  form_state (<[k := JStr s]> fd).
Proof.
  intros (H1 & H2 & H3 & H4 & H5 & H6) Hk. unfold form_state.
  repeat split;
    match goal with
    | |- is_string (<[k := _]> _ !! ?f) =>
        destruct (decide (k = f)) as [->|Hne];
        [rewrite lookup_insert_eq; eexists; reflexivity
        | rewrite lookup_insert_ne by exact Hne; assumption]
    | |- is_boolean _ => rewrite lookup_insert_ne by exact Hk; assumption
    end.
Qed.

Lemma form_state_insert_boolean fd b :
  form_state fd -> form_state (<[lit "agreeToTerms" := JBool b]> fd).
Proof.
  intros (H1 & H2 & H3 & H4 & H5 & H6). unfold form_state.
  repeat split;
    match goal with
    | |- is_string _ => rewrite lookup_insert_ne by (vm_compute; discriminate); assumption
    | |- is_boolean _ => rewrite lookup_insert_eq; eexists; reflexivity
    end.
Qed.

(** A change event of a rendered input keeps every field of its kind: the
    five text inputs hold strings and the checkbox a boolean. *)
Lemma handleInputChange_form_state (st : store) (e : target) :
  form_state (formData st) ->
  from_rendered_input e ->
  form_state (formData (settle st (handleInputChange e))).
Proof.
  intros Hfs (types & Hin & Hty).
  unfold settle, handleInputChange, emit. cbn [fst foldl apply_event formData].
  apply list_elem_of_In in Hin. apply list_elem_of_In in Hty.
  unfold rendered_inputs in Hin. cbn [In] in Hin.
  destruct Hin as [Hin|[Hin|[Hin|[Hin|[Hin|[Hin|[]]]]]]];
    injection Hin as Hn <-; cbn [In] in Hty; rewrite <- Hn;
    try (assert (Hcb : type e <> lit "checkbox")
           by (intros Heq; rewrite Heq in Hty; vm_compute in Hty;
               intuition discriminate);
         rewrite (bool_decide_eq_false_2 _ Hcb);
         apply form_state_insert_string; [assumption | vm_compute; discriminate]).
  destruct Hty as [Hty|[]]. rewrite bool_decide_eq_true_2 by (now symmetry).
  now apply form_state_insert_boolean.
Qed.

End FormState.

(** ** The examples of the specification's rule table *)

Section Examples.
Import Register Spec.

Example fullName_examples (fd : gmap jsstring jsval) :
  validateField (lit "fullName") (JStr []) fd = Ok (JStr (lit "Full name is required"))
  /\ validateField (lit "fullName") (JStr (lit "A")) fd
     = Ok (JStr (lit "Full name must be at least 2 characters"))
  /\ validateField (lit "fullName") (JStr (lit "John123")) fd
     = Ok (JStr (lit "Full name can contain only letters and spaces"))
  /\ validateField (lit "fullName") (JStr (lit "John Doe")) fd = Ok (JStr []).
Proof. rewrite !validateField_total. repeat split. Qed.

Example email_examples (fd : gmap jsstring jsval) :
  validateField (lit "email") (JStr []) fd = Ok (JStr (lit "Email is required"))
  /\ validateField (lit "email") (JStr (lit "bad")) fd
     = Ok (JStr (lit "Invalid email address"))
  /\ validateField (lit "email") (JStr (lit "a@b.com")) fd = Ok (JStr []).
Proof. rewrite !validateField_total. repeat split. Qed.

Example password_examples (fd : gmap jsstring jsval) :
  validateField (lit "password") (JStr (lit "short")) fd
  = Ok (JStr (lit "Password must be at least 8 characters"))
  /\ validateField (lit "password") (JStr (lit "longenough1")) fd = Ok (JStr []).
Proof. rewrite !validateField_total. repeat split. Qed.

Example confirmPassword_examples :
  validateField (lit "confirmPassword") (JStr (lit "a"))
    {[ lit "password" := JStr (lit "b") ]}
  = Ok (JStr (lit "Passwords do not match"))
  /\ validateField (lit "confirmPassword") (JStr (lit "a"))
       {[ lit "password" := JStr (lit "a") ]}
     = Ok (JStr []).
Proof. split; vm_compute; reflexivity. Qed.

Example agreeToTerms_examples (fd : gmap jsstring jsval) :
  validateField (lit "agreeToTerms") (JBool false) fd
  = Ok (JStr (lit "You must agree to the Terms & Conditions"))
  /\ validateField (lit "agreeToTerms") (JBool true) fd = Ok (JStr []).
Proof. rewrite !validateField_total. repeat split. Qed.

(** A boolean in a text field is converted by [test]: [true] reads as the
    four letters of its name. *)
Example boolean_in_text_field (fd : gmap jsstring jsval) :
  validateField (lit "fullName") (JBool true) fd = Ok (JStr [])
  /\ validateField (lit "email") (JBool true) fd = Ok (JStr (lit "Invalid email address")).
Proof. rewrite !validateField_total. repeat split. Qed.

(** A failed start-up: the error is logged and the caller gets [false]. *)
Example initializeConfig_unset :
  Config.initializeConfig env_unset =
    ([ ConsoleWarn
         [ ArgStr ([9888; 65039] ++ lit " Configuration warnings:");
           ArgList [ lit "REACT_APP_RP_ID is not set - passkey functionality may not work";
                     lit "REACT_APP_RP_NAME is not set - using default" ] ];
       ConsoleError
         [ ArgStr ([10060] ++ lit " Configuration errors:");
           ArgList [ lit "REACT_APP_API_BASE_URL is required" ] ];
       ConsoleError
         [ ArgStr ([10060] ++ lit " Configuration validation failed:");
           ArgStr (lit "Missing required environment variables: REACT_APP_API_BASE_URL is required") ] ],
     Ok false).
Proof. reflexivity. Qed.

End Examples.

(** * The properties *)

Section Claims.
Import RegExp Register Spec.

(** C1. For every field name and value, per-field validation returns the
    message of the first failing rule in the fixed order: the required
    message when the rule is required and the value is empty or falsy;
    else the minLength message when a minimum length is configured and the
    value's length is below it; else the pattern message when a pattern is
    configured and the value does not match it; else, for confirmPassword
    only, the mismatch message when the value differs from the current
    password; otherwise no error.  For a field name outside the rule set it
    returns no error. *)
Theorem validateField_first_failing_rule
    (fieldName : jsstring) (value : jsval) (formData : gmap jsstring jsval) :
  validateField fieldName value formData
    = Ok (JStr (validateField_spec fieldName value formData))
  /\ (rule_set fieldName = None ->
      validateField fieldName value formData = Ok (JStr [])).
Proof.
  split.
  - apply validateField_total.
  - apply validateField_other.
Qed.

Lemma validateField_first_failing_rule_witness :
  rule_set (lit "nickname") = None
  /\ validateField (lit "nickname") (JStr (lit "Jo")) ∅ = Ok (JStr []).
Proof.
  split; [reflexivity|].
  apply (proj2 (validateField_first_failing_rule (lit "nickname") (JStr (lit "Jo")) ∅)).
  reflexivity.
Defined.

(** C8. The phone field accepts exactly the strings of ten digits: a value
    passes the phone rule if and only if it is a string of ten code units
    that are all digits.  In particular 12345 and 12345678901 get the
    pattern error and 1234567890 gets no error. *)
Theorem phone_accepts_exactly_ten_digits :
  (forall (value : jsval) (formData : gmap jsstring jsval),
     validateField (lit "phone") value formData = Ok (JStr [])
     <-> exists s, value = JStr s /\ length s = 10%nat
                   /\ Forall (fun c => is_digit c = true) s)
  /\ (forall formData,
        validateField (lit "phone") (JStr (lit "12345")) formData
        = Ok (JStr (lit "Phone number must be exactly 10 digits")))
  /\ (forall formData,
        validateField (lit "phone") (JStr (lit "1234567890")) formData = Ok (JStr []))
  /\ (forall formData,
        validateField (lit "phone") (JStr (lit "12345678901")) formData
        = Ok (JStr (lit "Phone number must be exactly 10 digits"))).
Proof.
  split; [|repeat split; intros fd; rewrite validateField_total; reflexivity].
  intros v fd. rewrite validateField_total, phone_spec. split.
  - intros [= H]. destruct v as [|[]|s]; simpl in H; try discriminate.
    case_bool_decide as Hs; simpl in H; [discriminate|].
    destruct (test _ s) eqn:Ht; simpl in H; [|discriminate].
    exists s. split; [reflexivity|]. now apply ten_digits_test.
  - intros (s & -> & Hlen & Hall). simpl.
    rewrite bool_decide_eq_false_2 by (intros ->; discriminate). simpl.
    assert (Ht : test {| from_start := true; inner := Repeat 10 (Class digit);
                         to_end := true |} s = true)
      by now apply ten_digits_test.
    simpl in Ht. rewrite Ht. reflexivity.
Qed.

(** C3. After every submit-time validation pass the Field Error Map holds
    an entry for a field if and only if that field fails validation
    against the Form State of that pass, each entry being the field's
    non-empty message; the map is recomputed in full, whatever map was
    there before. *)
Theorem formErrors_recomputed_on_submit
    (env : Config.process_env) (server : backend) (st : store)
    (previous : gmap jsstring jsval) :
  exists errors : gmap jsstring jsval,
    validateForm (formData st) = Ok errors
    /\ formErrors (settle st (handleSubmit env server st)) = errors
    /\ (forall fieldName, is_Some (errors !! fieldName) <-> fails (formData st) fieldName)
    /\ (forall fieldName m, errors !! fieldName = Some m ->
          validateField fieldName (prop (formData st) fieldName) (formData st) = Ok m
          /\ truthy m = true)
    /\ (let st' := {| formData := formData st; error := error st;
                      formErrors := previous; loading := loading st |} in
        formErrors (settle st' (handleSubmit env server st')) = errors).
Proof.
  destruct (validateForm_lookup (formData st)) as (errors & Hv & Hlook).
  exists errors. split; [exact Hv|]. split; [now apply formErrors_after_submit|].
  split; [|split].
  - intros k. rewrite fails_iff, Hlook. case_bool_decide as Hm.
    + split; [intros [? [=]] | intros; done].
    + split; [intros _; exact Hm | intros _; eauto].
  - intros k m. rewrite Hlook. case_bool_decide as Hm; [discriminate|].
    intros [= <-]. split; [apply validateField_total | now apply truthy_JStr].
  - cbv zeta. now apply formErrors_after_submit.
Qed.

(** C2, as stated, fails when the API base URL is not configured: the
    all-valid form gives an empty error map and yet no network call is
    issued, because [getApiBaseUrl] raises before [fetch] is reached. *)
Lemma valid_submit_without_api_url_issues_no_call :
  ~ (network_call_issued env_unset (responds 201 (Ok JNull)) store_A
     <-> error_map_empty store_A).
Proof.
  intros [_ H]. assert (Hv : error_map_empty store_A) by (vm_compute; reflexivity).
  apply H in Hv. apply Hv. vm_compute. reflexivity.
Qed.

(** C2, amended. On submit, the submission is attempted if and only if
    full-form validation of the current form state produces an empty error
    map, and the network call is issued if and only if, in addition, the
    API base URL is configured.  Submitting the all-empty initial form
    produces exactly the six required-field messages and no network call;
    the all-valid scenario-A form produces an empty error map and the
    submission is attempted. *)
Theorem submit_gate (env : Config.process_env) (server : backend) (st : store) :
  (submission_attempted env server st <-> error_map_empty st)
  /\ (network_call_issued env server st <->
      error_map_empty st /\ Config.is_set (Config.REACT_APP_API_BASE_URL env) = true)
  /\ (validateForm initial_formData = Ok six_required_messages
      /\ fetches (handleSubmit env server initial_store).1 = [])
  /\ (validateForm scenario_A = Ok ∅
      /\ submission_attempted env server store_A).
Proof.
  assert (Hvalid : forall st0, validateForm (formData st0) = Ok ∅ ->
            SetLoading true ∈ (handleSubmit env server st0).1
            /\ fetches (handleSubmit env server st0).1
               = fetches (request_events env (formData st0))).
  { intros st0 Hv. rewrite (handleSubmit_events_valid env server st0 Hv). split.
    - do 2 right. left.
    - unfold request_events, fetches.
      destruct (Config.getApiBaseUrl env);
        destruct (submitRegistration env server (formData st0)).2 as [[[] m]|e1];
        reflexivity. }
  assert (Hinvalid : forall st0 errors, validateForm (formData st0) = Ok errors ->
            errors <> ∅ ->
            (SetLoading true ∉ (handleSubmit env server st0).1)
            /\ fetches (handleSubmit env server st0).1 = []).
  { intros st0 errors Hv Hne. rewrite (handleSubmit_invalid env server st0 _ Hv Hne).
    split; [|reflexivity]. cbn [fst].
    intros Hin. repeat (apply elem_of_cons in Hin as [Hin|Hin]; [discriminate|]).
    now apply not_elem_of_nil in Hin. }
  assert (HA : validateForm scenario_A = Ok ∅) by (vm_compute; reflexivity).
  assert (HB : validateForm initial_formData = Ok six_required_messages)
    by (vm_compute; reflexivity).
  unfold submission_attempted, network_call_issued, error_map_empty.
  destruct (validateForm_total st) as [errors Hv].
  split; [|split; [|split]].
  - split.
    + intros Hin. destruct (decide (errors = ∅)) as [->|Hne]; [exact Hv|].
      now destruct (Hinvalid st errors Hv Hne).
    + intros Hv'. now apply Hvalid.
  - split.
    + intros Hcall. destruct (decide (errors = ∅)) as [->|Hne].
      * split; [exact Hv|]. destruct (Hvalid st Hv) as [_ Hf]. rewrite Hf in Hcall.
        unfold request_events in Hcall. apply is_set_getApiBaseUrl.
        destruct (Config.getApiBaseUrl env); [eauto | exfalso; now apply Hcall].
      * destruct (Hinvalid st errors Hv Hne) as [_ Hf]. now rewrite Hf in Hcall.
    + intros [Hv' Hset]. destruct (Hvalid st Hv') as [_ Hf]. rewrite Hf.
      apply is_set_getApiBaseUrl in Hset as [apiUrl Hurl].
      unfold request_events. rewrite Hurl. discriminate.
  - split; [exact HB|].
    apply (Hinvalid initial_store six_required_messages HB).
    unfold six_required_messages. apply insert_non_empty.
  - split; [exact HA|]. now apply (Hvalid store_A).
Qed.

(** C4, as stated, fails on a body whose message field is empty: the
    failure then carries the fallback, not that message. *)
Lemma empty_message_gets_fallback :
  let body := JObject [(lit "message", JString [])] in
  let run := handleSubmit env_configured (responds 409 (Ok body)) store_A in
  message_field body = Some (JString [])
  /\ error (settle store_A run) = Some (JString (lit "Registration failed"))
  /\ error (settle store_A run) <> Some (JString []).
Proof. vm_compute. repeat split. discriminate. Qed.

(** C4, amended. When the backend responds with a 2xx status, the
    submission resolves to Success and navigation to the login view is
    triggered exactly once.  When it responds with a non-2xx status, the
    submission resolves to Failure and no navigation occurs; the failure
    carries the body's exact message when the body is JSON with a truthy
    (non-empty) message field, and a generic fallback otherwise.  On every
    resolution path of a started submission the loading flag is cleared by
    a single finalization step, the last of the handler. *)
Theorem submission_resolution
    (env : Config.process_env) (server : backend) (st : store) :
  error_map_empty st ->
  let run := handleSubmit env server st in
  let st' := settle st run in
  (loading st' = false
   /\ loading_updates run.1 = [true; false]
   /\ last run.1 = Some (SetLoading false))
  /\ (forall apiUrl res,
        Config.getApiBaseUrl env = Ok apiUrl ->
        server (registration_request apiUrl (formData st)) = Ok res ->
        if ok res
        then navigations run.1 = [lit "/login"] /\ error st' = Some (JString [])
        else navigations run.1 = [] /\ error st' = Some (failure_message (json_body res))).
Proof.
  intros Hv. cbv zeta. unfold error_map_empty in Hv.
  destruct (projections_valid env server st Hv) as (_ & Hnav & _ & Hload & Hlast).
  cbv zeta in Hnav. rewrite (settle_valid env server st Hv), Hnav.
  split; [auto|]. intros apiUrl res Hurl Hres. cbn [error].
  destruct (ok res) eqn:Hok.
  - now rewrite (submitRegistration_ok env server _ _ _ Hurl Hres Hok).
  - destruct (json_body res) as [j|e] eqn:Hbody.
    + assert (Hnull : j = JNull \/ j <> JNull)
        by (destruct j; [left; reflexivity | right; discriminate ..]).
      destruct Hnull as [->|Hj].
      * now rewrite (submitRegistration_null env server _ _ _ Hurl Hres Hok Hbody).
      * rewrite (submitRegistration_refused env server _ _ _ _ Hurl Hres Hok Hbody Hj).
        cbn. now rewrite or_else_failure_message.
    + now rewrite (submitRegistration_unparseable env server _ _ _ _ Hurl Hres Hok Hbody).
Qed.

Lemma submission_resolution_witness :
  error_map_empty store_A
  /\ (let run := handleSubmit env_configured (responds 201 (Ok JNull)) store_A in
      navigations run.1 = [lit "/login"]
      /\ loading (settle store_A run) = false)
  /\ (let run := handleSubmit env_configured (responds 409 (Ok email_taken)) store_A in
      navigations run.1 = []
      /\ error (settle store_A run) = Some (JString (lit "Email already registered"))
      /\ loading (settle store_A run) = false).
Proof.
  assert (Hv : error_map_empty store_A) by (vm_compute; reflexivity).
  split; [exact Hv|]. split.
  - destruct (submission_resolution env_configured (responds 201 (Ok JNull)) store_A Hv)
      as [[Hl _] Hres].
    specialize (Hres (lit "https://api.example.com")
                     {| status := 201; json_body := Ok JNull |} eq_refl eq_refl).
    cbv zeta. split; [apply Hres | exact Hl].
  - destruct (submission_resolution env_configured (responds 409 (Ok email_taken)) store_A Hv)
      as [[Hl _] Hres].
    specialize (Hres (lit "https://api.example.com")
                     {| status := 409; json_body := Ok email_taken |} eq_refl eq_refl).
    cbv zeta. split; [apply Hres | split; [apply Hres | exact Hl]].
Defined.

(** C5. For every valid form state, the registration request is a POST to
    <apiBaseUrl>/auth/user/register with Content-Type application/json
    whose JSON body has exactly the four string fields fullName, email,
    phone and password of the Form State; confirmPassword and agreeToTerms
    are not transmitted.  (It is the only request of the handler, sent
    when the API base URL is configured.) *)
Theorem registration_request_contents
    (env : Config.process_env) (server : backend) (st : store) :
  form_state (formData st) ->
  error_map_empty st ->
  exists fullName email phone password : jsstring,
    formData st !! lit "fullName" = Some (JStr fullName)
    /\ formData st !! lit "email" = Some (JStr email)
    /\ formData st !! lit "phone" = Some (JStr phone)
    /\ formData st !! lit "password" = Some (JStr password)
    /\ fetches (handleSubmit env server st).1 =
         match Config.getApiBaseUrl env with
         | Ok apiUrl =>
             [ {| url := apiUrl ++ lit "/auth/user/register";
                  method := lit "POST";
                  headers := [(lit "Content-Type", lit "application/json")];
                  body := JSON_stringify
                            [ (lit "fullName", JStr fullName);
                              (lit "email", JStr email);
                              (lit "phone", JStr phone);
                              (lit "password", JStr password) ] |} ]
         | Throw _ => []
         end.
Proof.
  intros ([a Ha] & [b Hb] & [c Hc] & [d Hd] & _) Hv.
  exists a, b, c, d. repeat (split; [assumption|]).
  destruct (projections_valid env server st Hv) as (Hf & _).
  cbv zeta in Hf. rewrite Hf. unfold request_events, registration_request, prop.
  rewrite Ha, Hb, Hc, Hd. destruct (Config.getApiBaseUrl env); reflexivity.
Qed.

Lemma registration_request_contents_witness :
  fetches (handleSubmit env_configured (responds 201 (Ok JNull)) store_A).1 =
    [ {| url := lit "https://api.example.com/auth/user/register";
         method := lit "POST";
         headers := [(lit "Content-Type", lit "application/json")];
         body := JSON_stringify
                   [ (lit "fullName", JStr (lit "Jane Doe"));
                     (lit "email", JStr (lit "jane@example.com"));
                     (lit "phone", JStr (lit "0771234567"));
                     (lit "password", JStr (lit "password123")) ] |} ].
Proof.
  assert (Hform : form_state (formData store_A)).
  { repeat split; eexists; vm_compute; reflexivity. }
  assert (Hv : error_map_empty store_A) by (vm_compute; reflexivity).
  destruct (registration_request_contents env_configured (responds 201 (Ok JNull))
              store_A Hform Hv) as (a & b & c & d & Ha & Hb & Hc & Hd & Hreq).
  vm_compute in Ha, Hb, Hc, Hd.
  injection Ha as <-. injection Hb as <-. injection Hc as <-. injection Hd as <-.
  exact Hreq.
Defined.

(** C6, as stated, fails: a network-level exception and a structured
    rejection whose body has no message field show different messages. *)
Lemma network_and_server_fallback_differ :
  error (settle store_A (handleSubmit env_configured unreachable store_A))
  <> error (settle store_A
              (handleSubmit env_configured (responds 500 (Ok (JObject []))) store_A)).
Proof. vm_compute. discriminate. Qed.

(** C6, amended. For every failed submission that ends in the exception
    path (a network-level exception, an unreadable or null body, an unset
    API base URL) the user-facing message is the same generic retry-later
    message whatever was thrown; what was thrown only appears in the
    logged console error.  A structured server rejection whose body has no
    message field shows the different fallback message and logs
    nothing. *)
Theorem failure_message_by_path
    (env : Config.process_env) (server : backend) (st : store) :
  error_map_empty st ->
  let run := handleSubmit env server st in
  let st' := settle st run in
  (forall e, exception_path env server (formData st) e ->
     error st' = Some (JString (lit "Registration failed. Please try again later."))
     /\ console_errors run.1 =
          [[ArgStr (lit "[Register] Network or server error:"); ArgExn e]])
  /\ (forall apiUrl res j,
        Config.getApiBaseUrl env = Ok apiUrl ->
        server (registration_request apiUrl (formData st)) = Ok res ->
        ok res = false ->
        json_body res = Ok j ->
        j <> JNull ->
        message_field j = None ->
        error st' = Some (JString (lit "Registration failed"))
        /\ console_errors run.1 = []).
Proof.
  intros Hv. cbv zeta. unfold error_map_empty in Hv.
  destruct (projections_valid env server st Hv) as (_ & _ & Hlog & _).
  cbv zeta in Hlog. rewrite (settle_valid env server st Hv), Hlog. cbn [error].
  split.
  - intros e He.
    destruct (submitRegistration_exception_path env server _ _ He) as (t & -> & _).
    split; reflexivity.
  - intros apiUrl res j Hurl Hres Hok Hbody Hj Hm.
    rewrite (submitRegistration_refused env server _ _ _ _ Hurl Hres Hok Hbody Hj).
    cbn. rewrite Hm. split; reflexivity.
Qed.

Lemma failure_message_by_path_witness :
  error_map_empty store_A
  /\ error (settle store_A (handleSubmit env_configured unreachable store_A))
     = Some (JString (lit "Registration failed. Please try again later."))
  /\ error (settle store_A
              (handleSubmit env_configured (responds 500 (Ok (JObject []))) store_A))
     = Some (JString (lit "Registration failed")).
Proof.
  assert (Hv : error_map_empty store_A) by (vm_compute; reflexivity).
  split; [exact Hv|]. split.
  - apply (proj1 (failure_message_by_path env_configured unreachable store_A Hv)
                 (TypeError (lit "Failed to fetch"))).
    eapply NetworkFailure; reflexivity.
  - apply (proj2 (failure_message_by_path env_configured
                    (responds 500 (Ok (JObject []))) store_A Hv)
                 (lit "https://api.example.com")
                 {| status := 500; json_body := Ok (JObject []) |} (JObject []));
      try reflexivity. discriminate.
Defined.

(** C9. When the backend returns a non-2xx status whose body is not
    parseable as JSON, the body-parsing step throws, the structured
    server-rejection branch is bypassed, and the submission resolves
    through the exception path with the generic network-error message
    rather than a server-derived or server-fallback one. *)
Theorem unparseable_error_body
    (env : Config.process_env) (server : backend) (st : store)
    (apiUrl : jsstring) (res : response) (e : exn) :
  error_map_empty st ->
  Config.getApiBaseUrl env = Ok apiUrl ->
  server (registration_request apiUrl (formData st)) = Ok res ->
  ok res = false ->
  json_body res = Throw e ->
  let run := handleSubmit env server st in
  let st' := settle st run in
  (submitRegistration env server (formData st)).2 = Throw e
  /\ error st' = Some (JString (lit "Registration failed. Please try again later."))
  /\ error st' <> Some (JString (lit "Registration failed"))
  /\ console_errors run.1 =
       [[ArgStr (lit "[Register] Network or server error:"); ArgExn e]]
  /\ navigations run.1 = []
  /\ loading st' = false.
Proof.
  intros Hv Hurl Hres Hok Hbody. cbv zeta. unfold error_map_empty in Hv.
  destruct (projections_valid env server st Hv) as (_ & Hnav & Hlog & _).
  cbv zeta in Hnav, Hlog. rewrite (settle_valid env server st Hv), Hnav, Hlog.
  rewrite (submitRegistration_unparseable env server _ _ _ _ Hurl Hres Hok Hbody).
  cbn [snd error loading]. repeat split. discriminate.
Qed.

Lemma unparseable_error_body_witness :
  let server := responds 502 (Throw (SyntaxError (lit "Unexpected token <"))) in
  let run := handleSubmit env_configured server store_A in
  error (settle store_A run)
    = Some (JString (lit "Registration failed. Please try again later."))
  /\ navigations run.1 = [].
Proof.
  assert (Hv : error_map_empty store_A) by (vm_compute; reflexivity).
  pose proof (unparseable_error_body env_configured
                (responds 502 (Throw (SyntaxError (lit "Unexpected token <"))))
                store_A (lit "https://api.example.com")
                {| status := 502;
                   json_body := Throw (SyntaxError (lit "Unexpected token <")) |}
                (SyntaxError (lit "Unexpected token <"))
                Hv eq_refl eq_refl eq_refl eq_refl) as H.
  cbv zeta in *. split; apply H.
Defined.

(** C7. When the API base URL is unset (or empty), [getApiBaseUrl] raises
    a descriptive configuration error, by its own check of the
    environment and so whether or not [validateConfig] ran, and
    [initializeConfig] returns false.  When the API base URL is present
    and the relying-party id is unset, only a warning is recorded, no
    error, and [initializeConfig] returns true. *)
Theorem configuration_errors_and_warnings (env : Config.process_env) :
  (Config.is_set (Config.REACT_APP_API_BASE_URL env) = false ->
     Config.getApiBaseUrl env =
       Throw (Error (lit "REACT_APP_API_BASE_URL environment variable is required"))
     /\ (Config.initializeConfig env).2 = Ok false)
  /\ (Config.is_set (Config.REACT_APP_API_BASE_URL env) = true ->
      Config.is_set (Config.REACT_APP_RP_ID env) = false ->
      (Config.initializeConfig env).2 = Ok true
      /\ (Config.validateConfig env).2 = Ok true
      /\ console_errors (Config.initializeConfig env).1 = []
      /\ exists warnings,
           console_warnings (Config.initializeConfig env).1 =
             [[ArgStr ([9888; 65039] ++ lit " Configuration warnings:");
               ArgList warnings]]
           /\ lit "REACT_APP_RP_ID is not set - passkey functionality may not work"
              ∈ warnings).
Proof.
  split.
  - intros Hurl. split; [now apply not_set_getApiBaseUrl|].
    unfold Config.initializeConfig, Config.validateConfig. rewrite Hurl.
    destruct (Config.is_set (Config.REACT_APP_RP_ID env)),
             (Config.is_set (Config.REACT_APP_RP_NAME env)); reflexivity.
  - intros Hurl Hid.
    destruct (proj1 (is_set_getApiBaseUrl env) Hurl) as [apiUrl Hget].
    unfold Config.initializeConfig, Config.validateConfig.
    rewrite Hurl, Hid, Hget.
    destruct (Config.is_set (Config.REACT_APP_RP_NAME env));
      (repeat split; [eexists; split; [reflexivity | cbn; left]]).
Qed.

Lemma configuration_errors_and_warnings_witness :
  Config.getApiBaseUrl env_unset =
    Throw (Error (lit "REACT_APP_API_BASE_URL environment variable is required"))
  /\ (Config.initializeConfig env_unset).2 = Ok false
  /\ (Config.initializeConfig env_configured).2 = Ok true.
Proof.
  split; [|split].
  - apply (proj1 (configuration_errors_and_warnings env_unset)). reflexivity.
  - apply (proj1 (configuration_errors_and_warnings env_unset)). reflexivity.
  - apply (proj2 (configuration_errors_and_warnings env_configured)); reflexivity.
Defined.

(** C10. An environment value set to the empty string is indistinguishable
    from an unset one at the configuration interface: every function of
    the module gives the same outcome and the same console output on an
    environment and on the one where empty values are unset.  With the API
    base URL empty, [validateConfig] and [getApiBaseUrl] both raise as
    when it is unset; with the relying-party id or name empty, [getRpId]
    returns the empty string and [getRpName] the default name. *)
Theorem empty_value_is_unset (env : Config.process_env) :
  (Config.validateConfig env = Config.validateConfig (normalise env)
   /\ Config.getApiBaseUrl env = Config.getApiBaseUrl (normalise env)
   /\ Config.getRpId env = Config.getRpId (normalise env)
   /\ Config.getRpName env = Config.getRpName (normalise env)
   /\ Config.initializeConfig env = Config.initializeConfig (normalise env))
  /\ (Config.REACT_APP_API_BASE_URL env = Some [] ->
      (Config.validateConfig env).2 =
        Throw (Error (lit "Missing required environment variables: REACT_APP_API_BASE_URL is required"))
      /\ Config.getApiBaseUrl env =
           Throw (Error (lit "REACT_APP_API_BASE_URL environment variable is required")))
  /\ (Config.REACT_APP_RP_ID env = Some [] -> Config.getRpId env = [])
  /\ (Config.REACT_APP_RP_NAME env = Some [] ->
      Config.getRpName env = lit "Digital Identity Hub").
Proof.
  destruct env as [url id name]. split; [|split; [|split]].
  - unfold normalise; cbn [Config.REACT_APP_API_BASE_URL Config.REACT_APP_RP_ID
                           Config.REACT_APP_RP_NAME].
    destruct url as [[|c1 s1]|], id as [[|c2 s2]|], name as [[|c3 s3]|];
      repeat split; reflexivity.
  - cbn [Config.REACT_APP_API_BASE_URL]. intros ->. split; [|reflexivity].
    unfold Config.validateConfig.
    cbn [Config.REACT_APP_API_BASE_URL Config.REACT_APP_RP_ID Config.REACT_APP_RP_NAME].
    destruct (Config.is_set id), (Config.is_set name); reflexivity.
  - cbn [Config.REACT_APP_RP_ID]. intros ->. reflexivity.
  - cbn [Config.REACT_APP_RP_NAME]. intros ->. reflexivity.
Qed.

Lemma empty_value_is_unset_witness :
  let env := {| Config.REACT_APP_API_BASE_URL := Some [];
                Config.REACT_APP_RP_ID := Some [];
                Config.REACT_APP_RP_NAME := Some [] |} in
  Config.getApiBaseUrl env = Config.getApiBaseUrl env_unset
  /\ Config.validateConfig env = Config.validateConfig env_unset
  /\ Config.getRpId env = []
  /\ Config.getRpName env = lit "Digital Identity Hub".
Proof.
  cbv zeta.
  pose proof (empty_value_is_unset
                {| Config.REACT_APP_API_BASE_URL := Some [];
                   Config.REACT_APP_RP_ID := Some [];
                   Config.REACT_APP_RP_NAME := Some [] |})
    as ((Hv & Hu & _) & _ & Hid & Hname).
  split; [exact Hu|]. split; [exact Hv|].
  split; [apply Hid | apply Hname]; reflexivity.
Defined.

End Claims.


(** * Further properties *)

(** ** More on the patterns *)

Section PatternLanguages.
Import RegExp Register Spec Props.

Lemma Matches_Seq_inv r1 r2 s :
  Matches (Seq r1 r2) s <->
  exists s1 s2, s = s1 ++ s2 /\ Matches r1 s1 /\ Matches r2 s2.
Proof.
  split.
  - intros H. inversion H; subst. eauto.
  - intros (s1 & s2 & -> & H1 & H2). now constructor.
Qed.

Lemma Matches_Char_inv x s : Matches (Char x) s <-> s = [x].
Proof.
  unfold Char. split.
  - intros H. inversion H as [|cl c Hc| | | | |]; subst.
    unfold class_has in Hc. simpl in Hc. rewrite orb_false_r in Hc.
    apply N.eqb_eq in Hc. now subst.
  - intros ->. constructor. unfold class_has. simpl. now rewrite N.eqb_refl.
Qed.

Lemma Matches_Star_Class cl : forall s,
  Matches (Star (Class cl)) s <-> Forall (fun c => class_has cl c = true) s.
Proof.
  induction s as [|c s IH].
  - split; [intros _; constructor | intros _; constructor].
  - split.
    + intros H. apply Matches_Star_cons in H as (s1 & s2 & -> & H1 & H2).
      inversion H1; subst. simpl. constructor; [assumption|]. now apply IH.
    + intros H. inversion H; subst. change (c :: s) with ([c] ++ s).
      constructor; [now constructor | now apply IH].
Qed.

Lemma Matches_Plus_Class cl s :
  Matches (Plus (Class cl)) s <->
  s <> [] /\ Forall (fun c => class_has cl c = true) s.
Proof.
  unfold Plus. rewrite Matches_Class_cons. split.
  - intros (c & s' & -> & Hc & Hs). split; [discriminate|].
    constructor; [assumption | now apply Matches_Star_Class].
  - intros [Hne Hall]. destruct s as [|c s']; [done|].
    inversion Hall; subst. exists c, s'. repeat split; auto.
    now apply Matches_Star_Class.
Qed.

Lemma class_has_letters_and_spaces c :
  class_has letters_and_spaces c = is_letter c || is_white_space c.
Proof.
  unfold class_has, is_letter. simpl. rewrite orb_false_r. now rewrite orb_assoc.
Qed.

Lemma class_has_not_at_or_space c : class_has not_at_or_space c = email_unit c.
Proof. unfold class_has, email_unit. simpl. now rewrite orb_false_r. Qed.

Lemma Forall_class cl (P : N -> bool) s :
  (forall c, class_has cl c = P c) ->
  Forall (fun c => class_has cl c = true) s <-> Forall (fun c => P c = true) s.
Proof.
  intros H. rewrite !Forall_forall.
  split; intros Hall c Hc; specialize (Hall c Hc); [now rewrite <- H | now rewrite H].
Qed.

Lemma letters_test s :
  test {| from_start := true; inner := Plus (Class letters_and_spaces); to_end := true |} s
    = true
  <-> s <> [] /\ Forall (fun c => is_letter c || is_white_space c = true) s.
Proof.
  rewrite test_anchored by reflexivity. cbn [inner]. rewrite Matches_Plus_Class.
  now rewrite (Forall_class _ _ _ class_has_letters_and_spaces).
Qed.

Lemma email_part_Matches s :
  Matches (Plus (Class not_at_or_space)) s <-> email_part s.
Proof.
  unfold email_part. rewrite Matches_Plus_Class.
  now rewrite (Forall_class _ _ _ class_has_not_at_or_space).
Qed.

Lemma email_test s :
  test {| from_start := true;
          inner := Seq (Plus (Class not_at_or_space))
                  (Seq (Char 64)
                  (Seq (Plus (Class not_at_or_space))
                  (Seq (Char 46)
                       (Plus (Class not_at_or_space)))));
          to_end := true |} s = true
  <-> exists a b c, s = a ++ [64] ++ b ++ [46] ++ c
                    /\ email_part a /\ email_part b /\ email_part c.
Proof.
  rewrite test_anchored by reflexivity. cbn [inner]. split.
  - intros H.
    apply Matches_Seq_inv in H as (a & r1 & -> & Ha & H).
    apply Matches_Seq_inv in H as (x & r2 & -> & Hx & H).
    apply Matches_Seq_inv in H as (b & r3 & -> & Hb & H).
    apply Matches_Seq_inv in H as (y & c & -> & Hy & Hc).
    apply Matches_Char_inv in Hx as ->. apply Matches_Char_inv in Hy as ->.
    exists a, b, c. rewrite <- !email_part_Matches. auto.
  - intros (a & b & c & -> & Ha & Hb & Hc).
    apply email_part_Matches in Ha, Hb, Hc.
    repeat (apply MSeq; [assumption || now apply Matches_Char_inv|]). assumption.
Qed.

Lemma fullName_spec v fd :
  validateField_spec (lit "fullName") v fd =
    if empty_or_falsy v then lit "Full name is required"
    else if length_below v 2 then lit "Full name must be at least 2 characters"
    else if negb (test {| from_start := true;
                          inner := Plus (Class letters_and_spaces);
                          to_end := true |} (ToString v))
    then lit "Full name can contain only letters and spaces"
    else [].
Proof. reflexivity. Qed.

Lemma email_spec v fd :
  validateField_spec (lit "email") v fd =
    if empty_or_falsy v then lit "Email is required"
    else if negb (test {| from_start := true;
                          inner := Seq (Plus (Class not_at_or_space))
                                  (Seq (Char 64)
                                  (Seq (Plus (Class not_at_or_space))
                                  (Seq (Char 46)
                                       (Plus (Class not_at_or_space)))));
                          to_end := true |} (ToString v))
    then lit "Invalid email address"
    else [].
Proof. reflexivity. Qed.

Lemma password_spec v fd :
  validateField_spec (lit "password") v fd =
    if empty_or_falsy v then lit "Password is required"
    else if length_below v 8 then lit "Password must be at least 8 characters"
    else [].
Proof. reflexivity. Qed.

Lemma confirmPassword_spec v fd :
  validateField_spec (lit "confirmPassword") v fd =
    if empty_or_falsy v then lit "Please confirm your password"
    else if negb (bool_decide (v = prop fd (lit "password")))
    then lit "Passwords do not match"
    else [].
Proof. reflexivity. Qed.

Lemma agreeToTerms_spec v fd :
  validateField_spec (lit "agreeToTerms") v fd =
    if empty_or_falsy v then lit "You must agree to the Terms & Conditions" else [].
Proof. reflexivity. Qed.

Lemma Ok_JStr_nil (s : jsstring) : @Ok jsval (JStr s) = Ok (JStr []) <-> s = [].
Proof. split; [now intros [= ->] | now intros ->]. Qed.

End PatternLanguages.

(** ** What each rule accepts *)

Section FieldRules.
Import RegExp Register Spec Props.

Lemma fullName_rule (value : jsval) (formData : gmap jsstring jsval) :
  validateField (lit "fullName") value formData = Ok (JStr [])
  <-> value = JBool true
      \/ exists s, value = JStr s /\ (2 <= length s)%nat
                   /\ Forall (fun c => is_letter c || is_white_space c = true) s.
Proof.
  rewrite validateField_total, Ok_JStr_nil, fullName_spec.
  destruct value as [|[]|s]; simpl.
  - split; [discriminate | intros [[=]|(s & [=] & _)]].
  - split; [now left | reflexivity].
  - split; [discriminate | intros [[=]|(s & [=] & _)]].
  - case_bool_decide as Hs; simpl.
    { split; [discriminate|]. intros [[=]|(s' & [= <-] & Hl & _)]. subst. simpl in Hl. lia. }
    destruct (N.of_nat (length s) <? 2) eqn:Hlen; simpl.
    { apply N.ltb_lt in Hlen. split; [discriminate|].
      intros [[=]|(s' & [= <-] & Hl & _)]. lia. }
    apply N.ltb_ge in Hlen.
    destruct (test _ s) eqn:Ht; simpl.
    + apply letters_test in Ht as [_ Hall]. split; [|reflexivity].
      intros _. right. exists s. repeat split; [lia | assumption].
    + split; [discriminate|]. intros [[=]|(s' & [= <-] & _ & Hall)].
      assert (Ht' : test {| from_start := true; inner := Plus (Class letters_and_spaces);
                            to_end := true |} s = true)
        by (apply letters_test; split; assumption).
      simpl in Ht'. congruence.
Qed.

Lemma email_rule (value : jsval) (formData : gmap jsstring jsval) :
  validateField (lit "email") value formData = Ok (JStr [])
  <-> exists a b c, value = JStr (a ++ [64] ++ b ++ [46] ++ c)
                    /\ email_part a /\ email_part b /\ email_part c.
Proof.
  rewrite validateField_total, Ok_JStr_nil, email_spec.
  destruct value as [|[]|s]; simpl;
    try (split; [discriminate | intros (a & b & c & [=] & _)]).
  case_bool_decide as Hs; simpl.
  { split; [discriminate|]. intros (a & b & c & [= ->] & _).
    now destruct a. }
  destruct (test _ s) eqn:Ht; simpl.
  - apply email_test in Ht as (a & b & c & -> & H). split; [|reflexivity].
    intros _. exists a, b, c. split; [reflexivity | exact H].
  - split; [discriminate|]. intros (a & b & c & [= ->] & H).
    assert (Ht' : exists a' b' c', a ++ [64] ++ b ++ [46] ++ c = a' ++ [64] ++ b' ++ [46] ++ c'
                    /\ email_part a' /\ email_part b' /\ email_part c') by eauto.
    apply email_test in Ht'. simpl in Ht'. congruence.
Qed.

Lemma password_rule (value : jsval) (formData : gmap jsstring jsval) :
  validateField (lit "password") value formData = Ok (JStr [])
  <-> value = JBool true \/ exists s, value = JStr s /\ (8 <= length s)%nat.
Proof.
  rewrite validateField_total, Ok_JStr_nil, password_spec.
  destruct value as [|[]|s]; simpl.
  - split; [discriminate | intros [[=]|(s & [=] & _)]].
  - split; [now left | reflexivity].
  - split; [discriminate | intros [[=]|(s & [=] & _)]].
  - case_bool_decide as Hs; simpl.
    { split; [discriminate|]. intros [[=]|(s' & [= <-] & Hl)]. subst. simpl in Hl. lia. }
    destruct (N.of_nat (length s) <? 8) eqn:Hlen; simpl.
    + apply N.ltb_lt in Hlen. split; [discriminate|].
      intros [[=]|(s' & [= <-] & Hl)]. lia.
    + apply N.ltb_ge in Hlen. split; [|reflexivity].
      intros _. right. exists s. split; [reflexivity | lia].
Qed.

Lemma confirmPassword_rule (value : jsval) (formData : gmap jsstring jsval) :
  (validateField (lit "confirmPassword") value formData = Ok (JStr [])
   <-> truthy value = true /\ value = prop formData (lit "password"))
  /\ validateField (lit "confirmPassword") value ∅ <> Ok (JStr []).
Proof.
  assert (Hiff : forall fd,
            validateField (lit "confirmPassword") value fd = Ok (JStr [])
            <-> truthy value = true /\ value = prop fd (lit "password")).
  { intros fd. rewrite validateField_total, Ok_JStr_nil, confirmPassword_spec.
    rewrite <- falsy_is_empty_or_falsy.
    destruct (truthy value); simpl.
    - case_bool_decide as Heq; simpl; split; try discriminate; try tauto; auto.
    - split; [discriminate | intros [[=] _]]. }
  split; [apply Hiff|].
  intros H. apply Hiff in H as [Ht Heq]. rewrite Heq in Ht. discriminate.
Qed.

Lemma phone_rule (value : jsval) (formData : gmap jsstring jsval) :
  validateField (lit "phone") value formData = Ok (JStr [])
  <-> exists s, value = JStr s /\ length s = 10%nat
                /\ Forall (fun c => is_digit c = true) s.
Proof.
  rewrite validateField_total, Ok_JStr_nil, phone_spec.
  destruct value as [|[]|s]; simpl; try (split; [discriminate | intros (s & [=] & _)]).
  case_bool_decide as Hs; simpl.
  { split; [discriminate|]. intros (s' & [= <-] & Hl & _). now subst. }
  destruct (test _ s) eqn:Ht; simpl.
  - apply ten_digits_test in Ht. split; [|reflexivity]. intros _. eauto.
  - split; [discriminate|]. intros (s' & [= <-] & Hl & Hall).
    assert (Ht' : test {| from_start := true; inner := Repeat 10 (Class digit);
                          to_end := true |} s = true) by now apply ten_digits_test.
    simpl in Ht'. congruence.
Qed.

Lemma agreeToTerms_rule (value : jsval) (formData : gmap jsstring jsval) :
  validateField (lit "agreeToTerms") value formData = Ok (JStr [])
  <-> truthy value = true.
Proof.
  rewrite validateField_total, Ok_JStr_nil, agreeToTerms_spec.
  rewrite <- falsy_is_empty_or_falsy. destruct (truthy value); simpl; split; auto; discriminate.
Qed.

(** X1. The full-name rule accepts exactly the strings of at least two code
    units that are all letters A-Z, a-z or white space, and the boolean
    [true] (which [test] reads as its four letters).  So a name of white
    space only passes, and no upper length is checked. *)
Theorem fullName_accepted_iff (value : jsval) (formData : gmap jsstring jsval) :
  validateField (lit "fullName") value formData = Ok (JStr [])
  <-> value = JBool true
      \/ exists s, value = JStr s /\ (2 <= length s)%nat
                   /\ Forall (fun c => is_letter c || is_white_space c = true) s.
Proof. apply fullName_rule. Qed.

(** X2. The email rule accepts exactly the strings local@domain.tld whose
    three parts are non-empty and hold neither [@] nor white space (dots are
    allowed inside each part); no boolean passes. *)
Theorem email_accepted_iff (value : jsval) (formData : gmap jsstring jsval) :
  validateField (lit "email") value formData = Ok (JStr [])
  <-> exists a b c, value = JStr (a ++ [64] ++ b ++ [46] ++ c)
                    /\ email_part a /\ email_part b /\ email_part c.
Proof. apply email_rule. Qed.

(** X3. The password rule accepts exactly the strings of at least eight
    code units, whatever they are, and the boolean [true]. *)
Theorem password_accepted_iff (value : jsval) (formData : gmap jsstring jsval) :
  validateField (lit "password") value formData = Ok (JStr [])
  <-> value = JBool true \/ exists s, value = JStr s /\ (8 <= length s)%nat.
Proof. apply password_rule. Qed.

(** X4. The confirmation rule accepts a value exactly when it is truthy and
    strictly equal to the form's current password; against the default
    empty form data nothing is accepted. *)
Theorem confirmPassword_accepted_iff (value : jsval) (formData : gmap jsstring jsval) :
  (validateField (lit "confirmPassword") value formData = Ok (JStr [])
   <-> truthy value = true /\ value = prop formData (lit "password"))
  /\ validateField (lit "confirmPassword") value ∅ <> Ok (JStr []).
Proof. apply confirmPassword_rule. Qed.

Lemma validateField_spec_formData f v fd fd' :
  f <> lit "confirmPassword" \/ prop fd (lit "password") = prop fd' (lit "password") ->
  validateField_spec f v fd = validateField_spec f v fd'.
Proof.
  intros H. unfold validateField_spec. destruct (rule_set f) as [r|]; [|reflexivity].
  destruct H as [Hne | ->]; [|reflexivity].
  now rewrite (bool_decide_eq_false_2 _ Hne).
Qed.

(** X5. Fields are validated independently of one another: the answer for
    a field other than confirmPassword does not depend on the form data at
    all, and the answer for confirmPassword depends on them only through
    the password. *)
Theorem validateField_reads_only_password
    (fieldName : jsstring) (value : jsval) (formData formData' : gmap jsstring jsval) :
  (fieldName <> lit "confirmPassword" ->
   validateField fieldName value formData = validateField fieldName value formData')
  /\ (prop formData (lit "password") = prop formData' (lit "password") ->
      validateField fieldName value formData = validateField fieldName value formData').
Proof.
  split; intros H; rewrite !validateField_total; do 2 f_equal;
    apply validateField_spec_formData; auto.
Qed.

Lemma validateField_reads_only_password_witness :
  validateField (lit "phone") (JStr (lit "0771234567")) scenario_A
  = validateField (lit "phone") (JStr (lit "0771234567")) initial_formData
  /\ validateField (lit "confirmPassword") (JStr (lit "password123")) scenario_A
     = validateField (lit "confirmPassword") (JStr (lit "password123"))
         {[ lit "password" := JStr (lit "password123") ]}.
Proof.
  split.
  - apply (proj1 (validateField_reads_only_password (lit "phone")
                    (JStr (lit "0771234567")) scenario_A initial_formData)).
    vm_compute. discriminate.
  - apply (proj2 (validateField_reads_only_password (lit "confirmPassword")
                    (JStr (lit "password123")) scenario_A
                    {[ lit "password" := JStr (lit "password123") ]})).
    vm_compute. reflexivity.
Defined.

Lemma error_entries_ext fd fd' names : forall acc,
  (forall k, k ∈ names ->
     validateField_spec k (prop fd k) fd = validateField_spec k (prop fd' k) fd') ->
  error_entries fd names acc = error_entries fd' names acc.
Proof.
  unfold error_entries. induction names as [|n names IH]; intros acc H; [reflexivity|].
  cbn [foldl]. cbv zeta. rewrite (H n) by left. apply IH.
  intros k Hk. apply H. now right.
Qed.

Lemma password_is_rule_field : lit "password" ∈ validationRules.*1.
Proof. apply list_elem_of_In. vm_compute. tauto. Qed.

(** X6. Full-form validation reads the six rule fields and nothing else:
    two forms that agree on them get the same error map, whatever other
    properties they hold, and the error map only has rule fields as
    keys. *)
Theorem validateForm_reads_only_rule_fields (formData formData' : gmap jsstring jsval) :
  (forall k, k ∈ validationRules.*1 -> prop formData k = prop formData' k) ->
  validateForm formData = validateForm formData'
  /\ exists errors, validateForm formData = Ok errors
       /\ forall k, is_Some (errors !! k) -> k ∈ validationRules.*1.
Proof.
  intros H. split.
  - rewrite !validateForm_error_entries. f_equal. apply error_entries_ext.
    intros k Hk. rewrite (H k Hk). apply validateField_spec_formData.
    right. apply H, password_is_rule_field.
  - eexists. split; [apply validateForm_error_entries|].
    intros k. rewrite error_entries_lookup, lookup_empty.
    case_bool_decide as Hk; [tauto | intros [? [=]]].
Qed.

Lemma validateForm_reads_only_rule_fields_witness :
  validateForm (<[lit "nickname" := JStr (lit "JD")]> scenario_A) = validateForm scenario_A.
Proof.
  apply (validateForm_reads_only_rule_fields
           (<[lit "nickname" := JStr (lit "JD")]> scenario_A) scenario_A).
  intros k Hk. unfold prop. rewrite lookup_insert_ne; [reflexivity|].
  intros <-. apply list_elem_of_In in Hk. vm_compute in Hk. intuition discriminate.
Defined.

Lemma rule_fields :
  validationRules.*1 =
    [ lit "fullName"; lit "email"; lit "phone"; lit "password";
      lit "confirmPassword"; lit "agreeToTerms" ].
Proof. reflexivity. Qed.

Lemma validateForm_empty_iff fd :
  validateForm fd = Ok ∅
  <-> Forall (fun k => validateField k (prop fd k) fd = Ok (JStr [])) validationRules.*1.
Proof.
  destruct (validateForm_lookup fd) as (errors & Hv & Hlook). rewrite Hv, Forall_forall.
  split.
  - intros [= ->] k _. specialize (Hlook k). rewrite lookup_empty in Hlook.
    rewrite validateField_total. case_bool_decide as Hk; [now rewrite Hk | discriminate].
  - intros H. f_equal. apply map_eq. intros k. rewrite Hlook, lookup_empty.
    rewrite bool_decide_eq_true_2; [reflexivity|].
    destruct (assoc k validationRules) as [r|] eqn:Hr.
    + apply assoc_elem_of in Hr.
      assert (Hk : k ∈ validationRules.*1) by (apply list_elem_of_fmap; now exists (k, r)).
      specialize (H k Hk). rewrite validateField_total in H. now apply Ok_JStr_nil.
    + now apply validateField_spec_other.
Qed.

(** X7. A Form State can be submitted exactly when its full name is at least
    two letters or spaces, its email has the shape local@domain.tld, its
    phone is ten digits, its password has at least eight code units, the
    confirmation is that same password and the terms box is ticked: those
    are the forms whose error map is empty. *)
Theorem valid_form_iff_submittable (formData : gmap jsstring jsval) :
  form_state formData ->
  validateForm formData = Ok ∅ <-> submittable formData.
Proof.
  intros ([n Hn] & [e He] & [p Hp] & [w Hw] & [w' Hw'] & [t Ht]).
  rewrite validateForm_empty_iff, rule_fields. rewrite !Forall_cons, Forall_nil.
  unfold prop. rewrite Hn, He, Hp, Hw, Hw', Ht. cbn [default from_option].
  rewrite fullName_rule, email_rule, phone_rule, password_rule, agreeToTerms_rule.
  rewrite (proj1 (confirmPassword_rule (JStr w') formData)).
  unfold prop. rewrite Hw. cbn [default from_option]. unfold submittable.
  rewrite Hn, He, Hp, Hw, Hw', Ht. split.
  - intros ([[=]|(n' & [= <-] & Hn1 & Hn2)] & (a & b & c & [= ->] & Hmail)
            & (p' & [= <-] & Hp1 & Hp2) & [[=]|(w0 & [= <-] & Hw1)]
            & [_ [= ->]] & (Hterms & _)).
    simpl in Hterms. subst t. exists n, a, b, c, p, w. tauto.
  - intros (n' & a & b & c & p' & w0 & Hn' & Hn1 & Hn2 & He' & Ha & Hb & Hc
            & Hp' & Hp1 & Hp2 & Hw0 & Hw1 & Hc' & Ht').
    simplify_eq.
    split; [right; exists n'; auto|].
    split; [exists a, b, c; auto|].
    split; [exists p'; auto|].
    split; [right; exists w0; auto|].
    split; [|split; [reflexivity | exact I]].
    split; [|reflexivity].
    simpl. rewrite negb_true_iff. apply bool_decide_eq_false. intros ->. simpl in Hw1. lia.
Qed.

Lemma valid_form_iff_submittable_witness : submittable scenario_A.
Proof.
  apply (valid_form_iff_submittable scenario_A).
  - repeat split; eexists; vm_compute; reflexivity.
  - vm_compute. reflexivity.
Defined.

End FieldRules.

(** ** The handlers *)

Section Handlers.
Import RegExp Register Spec Props.

Lemma settle_handleInputChange st e :
  settle st (handleInputChange e) =
    {| formData := <[name e := if bool_decide (type e = lit "checkbox")
                               then JBool (checked e) else JStr (value e)]> (formData st);
       error := error st;
       formErrors := formErrors st;
       loading := loading st |}.
Proof. reflexivity. Qed.

(** X8. A change event writes the named field and nothing else: the field
    then holds the box state for a checkbox and the typed text otherwise,
    every other field keeps its value, and the error map, the banner and the
    loading flag are untouched (no field is revalidated on input); nothing
    is sent and nothing navigates. *)
Theorem handleInputChange_updates_one_field (st : store) (e : target) :
  let run := handleInputChange e in
  let st' := settle st run in
  formData st' !! name e
    = Some (if bool_decide (type e = lit "checkbox")
            then JBool (checked e) else JStr (value e))
  /\ (forall k, k <> name e -> formData st' !! k = formData st !! k)
  /\ formErrors st' = formErrors st
  /\ error st' = error st
  /\ loading st' = loading st
  /\ fetches run.1 = []
  /\ navigations run.1 = [].
Proof.
  cbv zeta. rewrite settle_handleInputChange. cbn [formData formErrors error loading].
  split; [apply lookup_insert_eq|]. split; [|repeat split].
  intros k Hk. now apply lookup_insert_ne.
Qed.

Lemma handleInputChange_updates_one_field_witness :
  let e := {| name := lit "phone"; value := lit "077"; type := lit "tel";
              checked := false |} in
  formData (settle initial_store (handleInputChange e)) !! lit "email"
  = initial_formData !! lit "email".
Proof.
  cbv zeta.
  apply (proj1 (proj2 (handleInputChange_updates_one_field initial_store
           {| name := lit "phone"; value := lit "077"; type := lit "tel";
              checked := false |}))).
  vm_compute. discriminate.
Defined.

(** X9. Changes compose as writes to a map: changes to two different
    fields give the same store in either order, and of two changes to the
    same field only the later one counts. *)
Theorem handleInputChange_order (st : store) (e1 e2 : target) :
  (name e1 <> name e2 ->
   settle (settle st (handleInputChange e1)) (handleInputChange e2)
   = settle (settle st (handleInputChange e2)) (handleInputChange e1))
  /\ (name e1 = name e2 ->
      settle (settle st (handleInputChange e1)) (handleInputChange e2)
      = settle st (handleInputChange e2)).
Proof.
  rewrite !settle_handleInputChange. cbn [formData formErrors error loading].
  split; intros H; f_equal.
  - apply insert_insert_ne. congruence.
  - rewrite H. apply insert_insert_eq.
Qed.

Lemma handleInputChange_order_witness :
  let typed n v := {| name := lit n; value := lit v; type := lit "text"; checked := false |} in
  settle (settle initial_store (handleInputChange (typed "fullName" "Jane")))
         (handleInputChange (typed "phone" "077"))
  = settle (settle initial_store (handleInputChange (typed "phone" "077")))
           (handleInputChange (typed "fullName" "Jane"))
  /\ settle (settle initial_store (handleInputChange (typed "phone" "07")))
            (handleInputChange (typed "phone" "077"))
     = settle initial_store (handleInputChange (typed "phone" "077")).
Proof.
  cbv zeta. split.
  - apply (proj1 (handleInputChange_order initial_store
             {| name := lit "fullName"; value := lit "Jane"; type := lit "text";
                checked := false |}
             {| name := lit "phone"; value := lit "077"; type := lit "text";
                checked := false |})).
    vm_compute. discriminate.
  - apply (proj2 (handleInputChange_order initial_store
             {| name := lit "phone"; value := lit "07"; type := lit "text";
                checked := false |}
             {| name := lit "phone"; value := lit "077"; type := lit "text";
                checked := false |})).
    reflexivity.
Defined.

Lemma validateForm_initial : validateForm initial_formData = Ok six_required_messages.
Proof. vm_compute. reflexivity. Qed.

Lemma validateForm_scenario_A : validateForm scenario_A = Ok ∅.
Proof. vm_compute. reflexivity. Qed.

(** The outcome of [submitRegistration], case by case. *)
Lemma submitRegistration_cases env server data :
  (submitRegistration env server data).2 =
    match Config.getApiBaseUrl env with
    | Throw e => Throw e
    | Ok apiUrl =>
        match server (registration_request apiUrl data) with
        | Throw e => Throw e
        | Ok res =>
            if ok res then Ok {| success := true; message := None |}
            else match json_body res with
                 | Throw e => Throw e
                 | Ok j =>
                     match get_message j with
                     | Throw e => Throw e
                     | Ok m => Ok {| success := false;
                                     message := Some (or_else m fallback_message) |}
                     end
                 end
        end
    end.
Proof.
  unfold submitRegistration.
  destruct (Config.getApiBaseUrl env) as [apiUrl|e0]; [|reflexivity]. io_simpl.
  fold (registration_request apiUrl data).
  destruct (server (registration_request apiUrl data)) as [res|e1]; [|reflexivity].
  destruct (ok res); [reflexivity|]. io_simpl.
  destruct (json_body res) as [j|e2]; [|reflexivity]. io_simpl.
  destruct (get_message j); reflexivity.
Qed.

Lemma getApiBaseUrl_Ok env apiUrl :
  Config.getApiBaseUrl env = Ok apiUrl
  <-> Config.REACT_APP_API_BASE_URL env = Some apiUrl /\ apiUrl <> [].
Proof.
  unfold Config.getApiBaseUrl.
  destruct (Config.REACT_APP_API_BASE_URL env) as [[|c s]|].
  - split; [discriminate | intros [[= <-] H]; done].
  - split; [intros [= <-]; split; [reflexivity | discriminate]
           | intros [[= <-] _]; reflexivity].
  - split; [discriminate | intros [[=] _]].
Qed.

Lemma or_else_truthy m : json_truthy (or_else m fallback_message) = true.
Proof.
  destruct m as [j|]; simpl; [|reflexivity].
  destruct (json_truthy j) eqn:Hj; [exact Hj | reflexivity].
Qed.

Lemma formData_after_submit env server st :
  formData (settle st (handleSubmit env server st)) = formData st.
Proof.
  destruct (validateForm_total st) as [errors Hv].
  destruct (decide (errors = ∅)) as [->|Hne].
  - now rewrite (settle_valid env server st Hv).
  - unfold settle. now rewrite (handleSubmit_invalid env server st _ Hv Hne).
Qed.

(** X10. The submit handler never throws, whatever the environment, the
    backend and the form; its first act is [preventDefault], and it leaves
    every value of the form as the user entered it, on success and on
    failure alike. *)
Theorem handleSubmit_never_throws
    (env : Config.process_env) (server : backend) (st : store) :
  let run := handleSubmit env server st in
  run.2 = Ok tt
  /\ head run.1 = Some PreventDefault
  /\ formData (settle st run) = formData st.
Proof.
  cbv zeta. split; [|split; [|apply formData_after_submit]];
    destruct (validateForm_total st) as [errors Hv];
    (destruct (decide (errors = ∅)) as [->|Hne];
     [rewrite (handleSubmit_valid env server st Hv)
     |rewrite (handleSubmit_invalid env server st _ Hv Hne)]); reflexivity.
Qed.

(** X11. When validation fails the handler only publishes the new error
    map: it returns before touching the banner or the loading flag, so a
    banner left by an earlier attempt stays as it was. *)
Theorem invalid_submit_only_sets_errors
    (env : Config.process_env) (server : backend) (st : store) :
  ~ error_map_empty st ->
  let run := handleSubmit env server st in
  exists errors,
    validateForm (formData st) = Ok errors
    /\ errors <> ∅
    /\ run.1 = [PreventDefault; SetFormErrors errors]
    /\ error (settle st run) = error st
    /\ loading (settle st run) = loading st.
Proof.
  intros Hinv. cbv zeta. destruct (validateForm_total st) as [errors Hv].
  assert (Hne : errors <> ∅) by (intros ->; now apply Hinv).
  exists errors. unfold settle. rewrite (handleSubmit_invalid env server st _ Hv Hne).
  repeat split; assumption.
Qed.

Lemma invalid_submit_only_sets_errors_witness :
  let st := {| formData := initial_formData;
               error := Some (JString (lit "Email already registered"));
               formErrors := ∅; loading := false |} in
  error (settle st (handleSubmit env_configured unreachable st))
  = Some (JString (lit "Email already registered")).
Proof.
  cbv zeta.
  destruct (invalid_submit_only_sets_errors env_configured unreachable
              {| formData := initial_formData;
                 error := Some (JString (lit "Email already registered"));
                 formErrors := ∅; loading := false |})
    as (errors & _ & _ & _ & Herr & _).
  - unfold error_map_empty. cbn [formData]. rewrite validateForm_initial.
    intros H. assert (H' : six_required_messages = ∅) by congruence.
    unfold six_required_messages in H'. now apply insert_non_empty in H'.
  - exact Herr.
Defined.

(** X12. A submit navigates at most once and sends at most one request;
    it navigates exactly when the form is valid, the API base URL is
    configured and the backend answers the request with a 2xx status. *)
Theorem navigation_only_on_2xx
    (env : Config.process_env) (server : backend) (st : store) :
  let run := handleSubmit env server st in
  (navigations run.1 = [lit "/login"]
   <-> error_map_empty st
       /\ exists apiUrl res,
            Config.getApiBaseUrl env = Ok apiUrl
            /\ server (registration_request apiUrl (formData st)) = Ok res
            /\ ok res = true)
  /\ (navigations run.1 = [lit "/login"] \/ navigations run.1 = [])
  /\ (length (fetches run.1) <= 1)%nat.
Proof.
  cbv zeta. unfold error_map_empty.
  destruct (validateForm_total st) as [errors Hv].
  destruct (decide (errors = ∅)) as [->|Hne].
  - destruct (projections_valid env server st Hv) as (Hf & Hnav & _).
    cbv zeta in Hf, Hnav. rewrite Hf, Hnav, submitRegistration_cases.
    unfold request_events.
    destruct (Config.getApiBaseUrl env) as [apiUrl|e0] eqn:Hurl.
    2:{ repeat split; auto; try discriminate. intros (_ & ? & ? & [=] & _). }
    destruct (server (registration_request apiUrl (formData st))) as [res|e1] eqn:Hres.
    2:{ repeat split; auto; try discriminate.
        intros (_ & ? & ? & [= <-] & ? & _). congruence. }
    destruct (ok res) eqn:Hok.
    { cbn. repeat split; eauto 10. }
    assert (Hno : ~ (validateForm (formData st) = Ok ∅ /\
                     exists apiUrl0 res0, Ok apiUrl = Ok apiUrl0
                       /\ server (registration_request apiUrl0 (formData st)) = Ok res0
                       /\ ok res0 = true)).
    { intros (_ & ? & ? & [= <-] & ? & ?). congruence. }
    destruct (json_body res) as [j|e2]; [destruct (get_message j)|];
      cbn; (split; [split; [discriminate | intros H; now apply Hno in H] | auto]).
  - assert (Hn : navigations (handleSubmit env server st).1 = [])
      by (rewrite (handleSubmit_invalid env server st _ Hv Hne); reflexivity).
    assert (Hf : fetches (handleSubmit env server st).1 = [])
      by (rewrite (handleSubmit_invalid env server st _ Hv Hne); reflexivity).
    rewrite Hn, Hf. split; [|split; [now right | simpl; lia]].
    split; [discriminate|]. intros [Hv' _]. congruence.
Qed.

Lemma started_submission_outcome
    (env : Config.process_env) (server : backend) (st : store) :
  error_map_empty st ->
  let run := handleSubmit env server st in
  let st' := settle st run in
  (navigations run.1 = [lit "/login"] /\ error st' = Some (JString []))
  \/ (navigations run.1 = [] /\ View.banner_truthy (error st') = true).
Proof.
  intros Hv. cbv zeta. unfold error_map_empty in Hv.
  destruct (projections_valid env server st Hv) as (_ & Hnav & _).
  cbv zeta in Hnav. rewrite Hnav, (settle_valid env server st Hv).
  rewrite submitRegistration_cases. cbn [error].
  destruct (Config.getApiBaseUrl env) as [apiUrl|e0]; [|right; split; reflexivity].
  destruct (server (registration_request apiUrl (formData st))) as [res|e1];
    [|right; split; reflexivity].
  destruct (ok res); [left; split; reflexivity|].
  destruct (json_body res) as [j|e2]; [|right; split; reflexivity].
  destruct (get_message j); right; (split; [reflexivity|]); [|reflexivity].
  cbn. apply or_else_truthy.
Qed.


(** X13. A submission that has started never ends silently: either it
    navigates to the login view with the banner empty, or it does not
    navigate and leaves a truthy message in the banner. *)
Theorem started_submission_navigates_or_reports
    (env : Config.process_env) (server : backend) (st : store) :
  error_map_empty st ->
  let run := handleSubmit env server st in
  let st' := settle st run in
  (navigations run.1 = [lit "/login"] /\ error st' = Some (JString []))
  \/ (navigations run.1 = [] /\ View.banner_truthy (error st') = true).
Proof. apply started_submission_outcome. Qed.

Lemma started_submission_navigates_or_reports_witness :
  View.banner_truthy
    (error (settle store_A (handleSubmit env_unset unreachable store_A))) = true.
Proof.
  destruct (started_submission_navigates_or_reports env_unset unreachable store_A)
    as [[Hnav _]|[_ Hb]].
  - exact validateForm_scenario_A.
  - assert (H0 : navigations (handleSubmit env_unset unreachable store_A).1 = [])
      by (vm_compute; reflexivity).
    rewrite H0 in Hnav. discriminate Hnav.
  - exact Hb.
Defined.



Lemma step_invariants st st' :
  step st st' ->
  form_state (formData st) /\ loading st = false
  /\ (forall k m, formErrors st !! k = Some m ->
        k ∈ validationRules.*1 /\ exists s, m = JStr s /\ s <> [])
  /\ is_Some (error st) ->
  form_state (formData st') /\ loading st' = false
  /\ (forall k m, formErrors st' !! k = Some m ->
        k ∈ validationRules.*1 /\ exists s, m = JStr s /\ s <> [])
  /\ is_Some (error st').
Proof.
  intros [st0 e He | st0 env server] (Hfs & Hload & Herrs & Herr).
  - rewrite settle_handleInputChange. cbn [formErrors error loading].
    split; [|auto]. rewrite <- settle_handleInputChange.
    now apply handleInputChange_form_state.
  - split; [now rewrite formData_after_submit|].
    destruct (validateForm_lookup (formData st0)) as (errors & Hv & Hlook).
    assert (Hnew : forall k m, errors !! k = Some m ->
              k ∈ validationRules.*1 /\ exists s, m = JStr s /\ s <> []).
    { intros k m. rewrite Hlook. case_bool_decide as Hk; [discriminate|].
      intros [= <-]. split; [|eauto].
      destruct (assoc k validationRules) as [r|] eqn:Hr.
      - apply assoc_elem_of in Hr. apply list_elem_of_fmap. now exists (k, r).
      - now rewrite validateField_spec_other in Hk. }
    rewrite (formErrors_after_submit env server st0 _ Hv).
    split; [|split; [exact Hnew|]].
    + destruct (decide (errors = ∅)) as [->|Hne].
      * now rewrite (settle_valid env server st0 Hv).
      * unfold settle. now rewrite (handleSubmit_invalid env server st0 _ Hv Hne).
    + destruct (decide (errors = ∅)) as [->|Hne].
      * rewrite (settle_valid env server st0 Hv). cbn [error].
        rewrite submitRegistration_cases.
        destruct (Config.getApiBaseUrl env); [|eauto].
        destruct (server _) as [res|]; [|eauto].
        destruct (ok res); [cbn; eauto|].
        destruct (json_body res) as [j|]; [|eauto].
        destruct (get_message j); cbn; eauto.
      * unfold settle. now rewrite (handleSubmit_invalid env server st0 _ Hv Hne).
Qed.

(** X15. Whatever the user types into the rendered inputs and however
    often the form is submitted, once a handler has finished the store is
    well formed: the five text fields hold strings and the terms field a
    boolean, the loading flag is off, every entry of the error map is a
    non-empty message for a rule field, and the banner is never
    [undefined]. *)
Theorem reachable_store_well_formed (st : store) :
  reachable st ->
  form_state (formData st)
  /\ loading st = false
  /\ (forall k m, formErrors st !! k = Some m ->
        k ∈ validationRules.*1 /\ exists s, m = JStr s /\ s <> [])
  /\ is_Some (error st).
Proof.
  induction 1 as [|st st' _ IH Hstep].
  - split; [apply initial_form_state|]. split; [reflexivity|]. split; [|eauto].
    intros k m. cbn. rewrite lookup_empty. discriminate.
  - eapply step_invariants; eauto.
Qed.

Lemma reachable_store_well_formed_witness :
  loading (settle initial_store (handleSubmit env_configured unreachable initial_store))
  = false.
Proof.
  apply (reachable_store_well_formed
           (settle initial_store (handleSubmit env_configured unreachable initial_store))).
  eapply ReachStep; [apply ReachInitial | apply SubmitStep].
Defined.

End Handlers.

(** ** Configuration and start-up *)

Section Startup.
Import Spec.

Lemma initializeConfig_result env :
  (Config.initializeConfig env).2
  = Ok (Config.is_set (Config.REACT_APP_API_BASE_URL env)).
Proof.
  unfold Config.initializeConfig, Config.validateConfig, Config.getApiBaseUrl.
  destruct (Config.REACT_APP_API_BASE_URL env) as [[|c s]|];
    destruct (Config.is_set (Config.REACT_APP_RP_ID env)),
             (Config.is_set (Config.REACT_APP_RP_NAME env)); reflexivity.
Qed.

(** X16. [initializeConfig] never throws: for every environment it returns
    a boolean, [true] exactly when the API base URL is set to a non-empty
    value, whatever the relying-party variables are. *)
Theorem initializeConfig_returns_whether_url_is_set (env : Config.process_env) :
  (Config.initializeConfig env).2
  = Ok (Config.is_set (Config.REACT_APP_API_BASE_URL env)).
Proof. apply initializeConfig_result. Qed.

(** X17. [validateConfig] and [getApiBaseUrl] agree on every environment:
    validation returns [true] exactly when the accessor returns a URL, and
    otherwise throws the error that names the missing variable; it never
    returns [false]. *)
Theorem validateConfig_agrees_with_getApiBaseUrl (env : Config.process_env) :
  (Config.validateConfig env).2 =
    match Config.getApiBaseUrl env with
    | Ok _ => Ok true
    | Throw _ =>
        Throw (Error (lit "Missing required environment variables: REACT_APP_API_BASE_URL is required"))
    end.
Proof.
  unfold Config.validateConfig, Config.getApiBaseUrl.
  destruct (Config.REACT_APP_API_BASE_URL env) as [[|c s]|];
    destruct (Config.is_set (Config.REACT_APP_RP_ID env)),
             (Config.is_set (Config.REACT_APP_RP_NAME env)); reflexivity.
Qed.

(** X18. No accessor yields a blank where a value is needed: a URL
    returned by [getApiBaseUrl] is the environment's value and is not
    empty, [getRpName] is never empty (it is the environment's value when
    that is non-empty, the default otherwise), and [getRpId] is the
    environment's value, or the empty string when unset. *)
Theorem accessors_return_the_environment (env : Config.process_env) :
  (forall apiUrl, Config.getApiBaseUrl env = Ok apiUrl ->
     Config.REACT_APP_API_BASE_URL env = Some apiUrl /\ apiUrl <> [])
  /\ Config.getRpName env <> []
  /\ Config.getRpName env
     = (if Config.is_set (Config.REACT_APP_RP_NAME env)
        then default [] (Config.REACT_APP_RP_NAME env)
        else lit "Digital Identity Hub")
  /\ Config.getRpId env = default [] (Config.REACT_APP_RP_ID env).
Proof.
  split; [intros apiUrl; apply getApiBaseUrl_Ok|].
  unfold Config.getRpName, Config.getRpId.
  destruct (Config.REACT_APP_RP_NAME env) as [[|c s]|],
           (Config.REACT_APP_RP_ID env) as [[|c' s']|];
    repeat split; discriminate.
Qed.

Lemma accessors_return_the_environment_witness :
  Config.REACT_APP_API_BASE_URL env_configured = Some (lit "https://api.example.com").
Proof.
  apply (proj1 (accessors_return_the_environment env_configured)
               (lit "https://api.example.com")).
  reflexivity.
Defined.

(** X19. Start-up renders the application whatever the configuration: the
    answer of [initializeConfig] is dropped, so with the container in place
    the root is created and rendered for every environment, a failed
    configuration check leaving only its console output. *)
Theorem startup_renders_whatever_the_configuration (env : Config.process_env) :
  Index.main env (Ok tt) =
    ((Index.Diagnostic <$> (Config.initializeConfig env).1)
       ++ [Index.CreateRoot (lit "root"); Index.Render true],
     Ok tt).
Proof.
  unfold Index.main. pose proof (initializeConfig_result env) as H.
  destruct (Config.initializeConfig env) as [t [b|e]]; [reflexivity | discriminate].
Qed.

End Startup.

(** ** The rendered form *)

Ltac eval_tags :=
  repeat match goal with
  | |- context [bool_decide (?a = ?b)] =>
      let v := eval vm_compute in (bool_decide (a = b)) in
      lazymatch v with
      | true => change (bool_decide (a = b)) with true
      | false => change (bool_decide (a = b)) with false
      end
  end.

Section Rendering.
Import Register Spec Props.

Lemma elements_if tag (b : bool) x y :
  View.elements tag (if b then x else y)
  = if b then View.elements tag x else View.elements tag y.
Proof. now destruct b. Qed.

Lemma ids_if (b : bool) x y :
  View.ids (if b then x else y) = if b then View.ids x else View.ids y.
Proof. now destruct b. Qed.

Lemma if_same {A} (b : bool) (x : A) : (if b then x else x) = x.
Proof. now destruct b. Qed.

Ltac view_unfold :=
  unfold View.controls, View.buttons, View.alerts, View.Register, View.PasswordField,
         View.FormField;
  cbv zeta;
  cbn [View.icon View.type View.name View.value View.onChange View.placeholder
       View.error View.required View.pattern View.maxLength View.inputMode
       View.autoComplete View.children View.pw_name View.pw_value View.pw_onChange
       View.pw_placeholder View.pw_error View.showPassword View.onTogglePassword
       View.pw_autoComplete].

Ltac view_simpl :=
  repeat (progress (cbn [View.elements View.ids View.get_attr View.className
                         View.control_of View.button_of View.optional_string
                         View.optional_number from_option assoc flat_map app
                         fmap list_fmap])
          || (progress unfold View.get_attr, View.className)
          || (rewrite !elements_if) || (rewrite !ids_if)
          || (progress eval_tags) || (rewrite !if_same)).

(** The six controls of the form, as a user agent reads them. *)
Lemma controls_Register st vis :
  View.controls (View.Register st vis) =
    let text_control n t :=
      {| View.c_name := Some (View.AStr (lit n));
         View.c_type := Some (View.AStr t);
         View.c_value := Some (View.AVal (prop (formData st) (lit n)));
         View.c_checked := None;
         View.c_onChange := Some (View.AHandler View.HandleInputChange);
         View.c_required := Some (View.ABool true);
         View.c_invalid := Some (View.ABool (truthy (prop (formErrors st) (lit n))));
         View.c_describedby :=
           if truthy (prop (formErrors st) (lit n))
           then Some (View.AStr (lit n ++ lit "-error")) else None |} in
    [ text_control "fullName" (lit "text");
      text_control "email" (lit "email");
      text_control "phone" (lit "tel");
      text_control "password"
        (if View.password_shown vis then lit "text" else lit "password");
      text_control "confirmPassword"
        (if View.confirmPassword_shown vis then lit "text" else lit "password");
      {| View.c_name := Some (View.AStr (lit "agreeToTerms"));
         View.c_type := Some (View.AStr (lit "checkbox"));
         View.c_value := None;
         View.c_checked := Some (View.AVal (prop (formData st) (lit "agreeToTerms")));
         View.c_onChange := Some (View.AHandler View.HandleInputChange);
         View.c_required := None;
         View.c_invalid :=
           Some (View.ABool (truthy (prop (formErrors st) (lit "agreeToTerms"))));
         View.c_describedby :=
           if truthy (prop (formErrors st) (lit "agreeToTerms"))
           then Some (View.AStr (lit "agreeToTerms-error")) else None |} ].
Proof.
  view_unfold. view_simpl. cbv zeta.
  repeat (f_equal; try (destruct (truthy _); reflexivity)).
Qed.

Lemma ids_Register st vis :
  View.ids (View.Register st vis) =
    let error_id n :=
      if truthy (prop (formErrors st) (lit n)) then [lit n ++ lit "-error"] else [] in
    error_id "fullName" ++ error_id "email" ++ error_id "phone"
    ++ error_id "password" ++ error_id "confirmPassword" ++ error_id "agreeToTerms".
Proof.
  view_unfold. view_simpl. cbv zeta.
  rewrite ?app_nil_r, <- ?app_assoc. reflexivity.
Qed.

Lemma buttons_Register st vis :
  View.buttons (View.Register st vis) =
    [ {| View.b_type := Some (View.AStr (lit "button"));
         View.b_onClick :=
           Some (View.AHandler (View.SetShowPassword (negb (View.password_shown vis))));
         View.b_disabled := None;
         View.b_busy := None;
         View.b_label :=
           Some (View.AStr (if View.password_shown vis
                            then lit "Hide password" else lit "Show password")) |};
      {| View.b_type := Some (View.AStr (lit "button"));
         View.b_onClick :=
           Some (View.AHandler
                   (View.SetShowConfirmPassword (negb (View.confirmPassword_shown vis))));
         View.b_disabled := None;
         View.b_busy := None;
         View.b_label :=
           Some (View.AStr (if View.confirmPassword_shown vis
                            then lit "Hide password" else lit "Show password")) |};
      {| View.b_type := Some (View.AStr (lit "submit"));
         View.b_onClick := None;
         View.b_disabled := Some (View.ABool (loading st));
         View.b_busy := Some (View.ABool (loading st));
         View.b_label := None |} ].
Proof. view_unfold. view_simpl. reflexivity. Qed.



Lemma elem_of_if_singleton (b : bool) (x y : jsstring) :
  x ∈ (if b then [y] else []) <-> b = true /\ x = y.
Proof.
  destruct b.
  - rewrite list_elem_of_singleton. tauto.
  - split; [intros H; now apply not_elem_of_nil in H | intros [[=] _]].
Qed.

(** The message span of a rule field is in the page exactly when the
    field has a truthy entry in the error map. *)
Lemma error_id_present st vis k :
  k ∈ validationRules.*1 ->
  k ++ lit "-error" ∈ View.ids (View.Register st vis)
  <-> truthy (prop (formErrors st) k) = true.
Proof.
  intros Hk. rewrite ids_Register. cbv zeta.
  rewrite !elem_of_app, !elem_of_if_singleton.
  rewrite rule_fields in Hk.
  repeat (apply elem_of_cons in Hk as [->|Hk]);
    [.. | now apply not_elem_of_nil in Hk];
    (split;
     [ intros H;
       repeat (destruct H as [H|H]);
       destruct H as [Ht Heq]; try exact Ht; vm_compute in Heq; discriminate
     | intros Ht; tauto ]).
Qed.

(** X20. [FormField] wires its error for assistive technology: its input
    carries the given name and value, is marked [aria-invalid] exactly when
    the error is truthy, and points with [aria-describedby] at
    <name>-error exactly then, an id that the rendered field does
    contain. *)
Theorem FormField_error_wiring (p : View.FormFieldProps) :
  exists c rest,
    View.controls (View.FormField p) = c :: rest
    /\ View.c_name c = Some (View.AStr (View.name p))
    /\ View.c_value c = Some (View.AVal (View.value p))
    /\ View.c_invalid c = Some (View.ABool (truthy (View.error p)))
    /\ View.c_describedby c
       = (if truthy (View.error p)
          then Some (View.AStr (View.name p ++ lit "-error")) else None)
    /\ (truthy (View.error p) = true ->
        View.name p ++ lit "-error" ∈ View.ids (View.FormField p)).
Proof.
  unfold View.controls, View.FormField. view_simpl.
  eexists _, _. split; [reflexivity|].
  cbn [View.c_name View.c_value View.c_invalid View.c_describedby].
  repeat split.
  - now destruct (truthy (View.error p)).
  - intros Ht. rewrite Ht. rewrite flat_map_app. view_simpl.
    rewrite !elem_of_app. right. left.
Qed.

Lemma FormField_error_wiring_witness :
  lit "email-error" ∈
    View.ids (View.FormField
      {| View.icon := lit "Mail"; View.type := lit "email"; View.name := lit "email";
         View.value := JStr (lit "bad"); View.onChange := View.HandleInputChange;
         View.placeholder := lit "Email";
         View.error := JStr (lit "Invalid email address");
         View.required := true; View.pattern := None; View.maxLength := None;
         View.inputMode := None; View.autoComplete := Some (lit "email");
         View.children := [] |}).
Proof.
  destruct (FormField_error_wiring
      {| View.icon := lit "Mail"; View.type := lit "email"; View.name := lit "email";
         View.value := JStr (lit "bad"); View.onChange := View.HandleInputChange;
         View.placeholder := lit "Email";
         View.error := JStr (lit "Invalid email address");
         View.required := true; View.pattern := None; View.maxLength := None;
         View.inputMode := None; View.autoComplete := Some (lit "email");
         View.children := [] |}) as (c & rest & _ & _ & _ & _ & _ & Hid).
  apply Hid. reflexivity.
Defined.

(** The [input] elements of the page, by name and type. *)
Lemma inputs_Register st vis attrs :
  attrs ∈ View.elements (lit "input") (View.Register st vis) ->
  exists n t,
    View.get_attr "name" attrs = Some (View.AStr n)
    /\ View.get_attr "type" attrs = Some (View.AStr t)
    /\ exists types, (n, types) ∈ rendered_inputs /\ t ∈ types.
Proof.
  view_unfold. view_simpl. intros Hin.
  repeat (apply elem_of_cons in Hin as [->|Hin]);
    [.. | now apply not_elem_of_nil in Hin];
    view_simpl; eexists _, _; (split; [reflexivity|]); (split; [reflexivity|]);
    eexists; (split; [apply list_elem_of_In; unfold rendered_inputs; cbn [In]; tauto|]);
    try (destruct (View.password_shown vis));
    try (destruct (View.confirmPassword_shown vis));
    apply list_elem_of_In; cbn [In]; tauto.
Qed.

(** X21. The page renders one control per validated field and no other:
    the names of its inputs are the keys of [validationRules], in that
    order, each input reports changes to [handleInputChange], and every
    change event an input can dispatch has a name and type of the rendered
    inputs. *)
Theorem rendered_controls_are_the_rule_fields (st : store) (vis : View.visibility) :
  let page := View.Register st vis in
  omap View.control_name (View.controls page) = validationRules.*1
  /\ length (View.controls page) = length validationRules
  /\ Forall (fun c => View.c_onChange c = Some (View.AHandler View.HandleInputChange))
            (View.controls page)
  /\ (forall attrs typed box,
        attrs ∈ View.elements (lit "input") page ->
        exists e, View.change_of attrs typed box = Some e /\ from_rendered_input e).
Proof.
  cbv zeta. rewrite controls_Register. cbv zeta.
  split; [reflexivity|]. split; [reflexivity|]. split.
  - repeat constructor.
  - intros attrs typed box Hin.
    destruct (inputs_Register st vis attrs Hin) as (n & t & Hn & Ht & Hr).
    unfold View.change_of. rewrite Hn, Ht. eexists. split; [reflexivity|]. exact Hr.
Qed.

Ltac shown_at i :=
  eexists;
  (split; [apply list_elem_of_lookup; exists i; reflexivity|]);
  (split; [reflexivity|]); eval_tags;
  cbn [View.c_value View.c_checked]; unfold prop; rewrite lookup_insert_eq; reflexivity.

Lemma rendered_controls_are_the_rule_fields_witness :
  let vis := {| View.password_shown := true; View.confirmPassword_shown := false |} in
  exists e,
    View.change_of
      [ (lit "type", View.AStr (lit "checkbox"));
        (lit "name", View.AStr (lit "agreeToTerms")) ] [] true = Some e
    /\ from_rendered_input e.
Proof.
  cbv zeta.
  pose (attrs :=
    [ (lit "type", View.AStr (lit "checkbox"));
      (lit "name", View.AStr (lit "agreeToTerms"));
      (lit "checked", View.AVal (prop initial_formData (lit "agreeToTerms")));
      (lit "onChange", View.AHandler View.HandleInputChange);
      (lit "className",
       View.AStr (lit "h-4 w-4 text-slt-green focus:ring-slt-green-500 border-gray-300 rounded mt-1 focus-ring "
                  ++ (if truthy (prop (∅ : gmap jsstring jsval) (lit "agreeToTerms"))
                      then lit "border-red-500" else [])));
      (lit "aria-invalid",
       View.ABool (truthy (prop (∅ : gmap jsstring jsval) (lit "agreeToTerms"))));
      (lit "aria-describedby",
       if truthy (prop (∅ : gmap jsstring jsval) (lit "agreeToTerms"))
       then View.AStr (lit "agreeToTerms-error") else View.AUndefined) ]).
  destruct (proj2 (proj2 (proj2 (rendered_controls_are_the_rule_fields initial_store
              {| View.password_shown := true; View.confirmPassword_shown := false |})))
              attrs [] true) as (e & He & Hr).
  - apply list_elem_of_In. vm_compute. tauto.
  - exists e. split; [|exact Hr]. rewrite <- He. reflexivity.
Defined.

(** X22. The inputs are controlled by the store, and a change comes back:
    after the change event of an input has been handled, the control of
    that name shows what was typed (or, for the checkbox, the new box
    state). *)
Theorem typed_value_is_shown
    (st : store) (vis : View.visibility) (attrs : list (jsstring * View.attr))
    (typed : jsstring) (box : bool) (e : target) :
  attrs ∈ View.elements (lit "input") (View.Register st vis) ->
  View.change_of attrs typed box = Some e ->
  exists c,
    c ∈ View.controls (View.Register (settle st (handleInputChange e)) vis)
    /\ View.control_name c = Some (name e)
    /\ (if bool_decide (type e = lit "checkbox")
        then View.c_checked c = Some (View.AVal (JBool box))
        else View.c_value c = Some (View.AVal (JStr typed))).
Proof.
  intros Hin Hchange.
  destruct (inputs_Register st vis attrs Hin) as (n & t & Hn & Ht & types & Hr & Hty).
  unfold View.change_of in Hchange. rewrite Hn, Ht in Hchange.
  injection Hchange as <-. cbn [name type].
  rewrite controls_Register, settle_handleInputChange. cbv zeta.
  cbn [formData formErrors name type checked value].
  apply list_elem_of_In in Hr. unfold rendered_inputs in Hr. cbn [In] in Hr.
  destruct Hr as [Hr|[Hr|[Hr|[Hr|[Hr|[Hr|[]]]]]]]; injection Hr as <- <-;
    apply list_elem_of_In in Hty; cbn [In] in Hty;
    repeat (destruct Hty as [<-|Hty]); try (destruct Hty);
    [ shown_at 0%nat | shown_at 1%nat | shown_at 2%nat | shown_at 3%nat
    | shown_at 3%nat | shown_at 4%nat | shown_at 4%nat | shown_at 5%nat ].
Qed.

Lemma typed_value_is_shown_witness :
  exists c,
    c ∈ View.controls
          (View.Register
             (settle initial_store
                (handleInputChange {| name := lit "phone"; value := lit "0771234567";
                                      type := lit "tel"; checked := false |}))
             {| View.password_shown := false; View.confirmPassword_shown := false |})
    /\ View.c_value c = Some (View.AVal (JStr (lit "0771234567"))).
Proof.
  destruct (typed_value_is_shown initial_store
              {| View.password_shown := false; View.confirmPassword_shown := false |}
              [ (lit "type", View.AStr (lit "tel"));
                (lit "name", View.AStr (lit "phone"));
                (lit "value", View.AVal (prop initial_formData (lit "phone")));
                (lit "onChange", View.AHandler View.HandleInputChange);
                (lit "placeholder", View.AStr (lit "Phone Number"));
                (lit "className",
                 View.AStr (lit "input-field pl-10 "
                            ++ (if truthy (prop (∅ : gmap jsstring jsval) (lit "phone"))
                                then lit "border-red-500" else [])));
                (lit "required", View.ABool true);
                (lit "aria-invalid",
                 View.ABool (truthy (prop (∅ : gmap jsstring jsval) (lit "phone"))));
                (lit "aria-describedby",
                 if truthy (prop (∅ : gmap jsstring jsval) (lit "phone"))
                 then View.AStr (lit "phone" ++ lit "-error") else View.AUndefined);
                (lit "pattern", View.optional_string (Some (lit "^\d{10}$")));
                (lit "maxLength", View.optional_number (Some 10%Z));
                (lit "inputMode", View.optional_string (Some (lit "numeric")));
                (lit "autoComplete", View.optional_string None) ]
              (lit "0771234567") false
              {| name := lit "phone"; value := lit "0771234567";
                 type := lit "tel"; checked := false |})
    as (c & Hc & _ & Hv).
  - apply list_elem_of_In. vm_compute. tauto.
  - vm_compute. reflexivity.
  - exists c. split; [exact Hc|]. exact Hv.
Defined.

Lemma controls_Register_marking st vis :
  Forall (fun c => exists k,
            k ∈ validationRules.*1
            /\ View.control_name c = Some k
            /\ View.c_invalid c = Some (View.ABool (truthy (prop (formErrors st) k)))
            /\ View.c_describedby c
               = (if truthy (prop (formErrors st) k)
                  then Some (View.AStr (k ++ lit "-error")) else None))
         (View.controls (View.Register st vis)).
Proof.
  rewrite controls_Register. cbv zeta. rewrite rule_fields.
  repeat (constructor; [eexists; split; [|split; [reflexivity|split; reflexivity]];
                        apply list_elem_of_In; cbn [In]; tauto|]).
  constructor.
Qed.

(** X23. Field errors are wired consistently across the page: each input
    is marked [aria-invalid] exactly when its field has a truthy entry in
    the error map, it then points with [aria-describedby] at
    <name>-error, and an element with that id is in the page exactly
    then, so the reference never dangles and no message is left
    unreferenced. *)
Theorem field_errors_are_wired (st : store) (vis : View.visibility) :
  let page := View.Register st vis in
  Forall (fun c => exists k,
            View.control_name c = Some k
            /\ View.c_invalid c = Some (View.ABool (truthy (prop (formErrors st) k)))
            /\ View.c_describedby c
               = (if truthy (prop (formErrors st) k)
                  then Some (View.AStr (k ++ lit "-error")) else None)
            /\ (k ++ lit "-error" ∈ View.ids page
                <-> truthy (prop (formErrors st) k) = true))
         (View.controls page).
Proof.
  cbv zeta. eapply Forall_impl; [apply controls_Register_marking|].
  intros c (k & Hk & Hn & Hi & Hd). exists k. repeat split; try assumption;
    now apply error_id_present.
Qed.


(** X25. Each password field has its own show/hide button, which cannot
    submit the form (its type is [button]) and sets the field's flag to the
    opposite of its current value; the field's input has type [text]
    while shown and [password] otherwise, and the button's label says
    which click comes next. *)
Theorem password_toggles (st : store) (vis : View.visibility) :
  let page := View.Register st vis in
  let toggle shown set :=
    {| View.b_type := Some (View.AStr (lit "button"));
       View.b_onClick := Some (View.AHandler (set (negb shown)));
       View.b_disabled := None;
       View.b_busy := None;
       View.b_label := Some (View.AStr (if shown then lit "Hide password"
                                        else lit "Show password")) |} in
  take 2 (View.buttons page)
  = [ toggle (View.password_shown vis) View.SetShowPassword;
      toggle (View.confirmPassword_shown vis) View.SetShowConfirmPassword ]
  /\ (View.c_type <$> View.controls page) !! 3%nat
     = Some (Some (View.AStr (if View.password_shown vis
                              then lit "text" else lit "password")))
  /\ (View.c_type <$> View.controls page) !! 4%nat
     = Some (Some (View.AStr (if View.confirmPassword_shown vis
                              then lit "text" else lit "password"))).
Proof.
  cbv zeta. rewrite buttons_Register, controls_Register. repeat split.
Qed.

Lemma truthy_error_entry fd errors k :
  validateForm fd = Ok errors ->
  truthy (prop errors k) = true <-> fails fd k.
Proof.
  intros Hv. destruct (validateForm_lookup fd) as (errors' & Hv' & Hlook).
  assert (errors' = errors) as -> by congruence.
  rewrite fails_iff. unfold prop. rewrite Hlook.
  case_bool_decide as Hk; cbn [default from_option]; unfold id.
  - split; [discriminate | intros H; done].
  - now rewrite truthy_JStr.
Qed.

(** X26. After a submit the page marks exactly the fields that failed:
    the input of each field is [aria-invalid] if and only if that field
    fails validation against the form as submitted. *)
Theorem submit_marks_the_failing_fields
    (env : Config.process_env) (server : backend) (st : store) (vis : View.visibility) :
  let st' := settle st (handleSubmit env server st) in
  Forall (fun c => exists k,
            View.control_name c = Some k
            /\ (View.c_invalid c = Some (View.ABool true) <-> fails (formData st) k))
         (View.controls (View.Register st' vis)).
Proof.
  cbv zeta. eapply Forall_impl; [apply controls_Register_marking|].
  intros c (k & _ & Hn & Hi & _). exists k. split; [exact Hn|]. rewrite Hi.
  destruct (validateForm_total st) as [errors Hv].
  rewrite (formErrors_after_submit env server st _ Hv).
  rewrite <- (truthy_error_entry _ _ k Hv).
  split; [now intros [= ->] | now intros ->].
Qed.



End Rendering.
